(** * plaintextfeeds: incremental feed updates and the watermark store

    A shallow embedding of [plaintextfeeds.py].  The Python functions
    [get_url_list], [get_feed_data], [update_feed], [save_feed_data] and
    [main] are transcribed below with the same names; the standard-library
    operations they call ([str.strip], [str.split], [datetime.strptime],
    [datetime.strftime], [list.sort], [dict]) are modelled first.

    Conventions.
    - Text is a [string]; a character is a code point below 256.
    - A file holds the text written to it (line ends are written as
      they are, as on POSIX); reading goes through universal newlines.
      A file is there and readable, or missing ([FileNotFoundError]).
    - A [dict] is an association list in insertion order with unique keys
      (Python dictionaries iterate in insertion order, and the state file
      is written in that order).
    - A datetime is aware: calendar fields and an offset from UTC.
      Comparison is by instant, as [datetime.__lt__] does it.
    - [datetime.strptime] raises only [ValueError]; it is modelled as a
      function to [option], [None] standing for the raised [ValueError].
      The expression it matches is that of CPython 3.7 to 3.12.
    - [datetime.strftime] is that of CPython 3.7 to 3.12 on Linux: the
      C library (glibc) writes [%Y] without leading zeros.
    - [update_feed] can raise: [TypeError] when it unpacks a
      [published_parsed] that is [None], [OverflowError] and [ValueError]
      from the [datetime(...)] constructor.  It returns a [result]; [main]
      catches none of the three.
    - [feedparser.parse] is a function from URLs to parsed feeds, carried
      by the world a run starts in.  A [published_parsed] is absent, or
      [None] (a date that feedparser could not read), or nine integers of
      which the program reads six. *)

From Stdlib Require Import ZArith List String Ascii Bool Lia Permutation Sorted.
Import ListNotations.

Local Open Scope string_scope.
Local Open Scope Z_scope.

(* ================================================================= *)
(** ** Text operations of [str] *)

(** [str.isspace] on one character, for code points below 256:
    TAB, LF, VT, FF, CR, FS, GS, RS, US, SPACE, NEL and NBSP. *)
Definition isspace (c : ascii) : bool :=
  let n := nat_of_ascii c in
  ((9 <=? n)%nat && (n <=? 13)%nat)
  || ((28 <=? n)%nat && (n <=? 32)%nat)
  || (n =? 133)%nat || (n =? 160)%nat.

(** [str.lstrip()] *)
Fixpoint lstrip (s : string) : string :=
  match s with
  | String c s' => if isspace c then lstrip s' else s
  | EmptyString => EmptyString
  end.

(** [str.rstrip()] *)
Fixpoint rstrip (s : string) : string :=
  match s with
  | EmptyString => EmptyString
  | String c s' =>
      match rstrip s' with
      | EmptyString => if isspace c then EmptyString else String c EmptyString
      | r => String c r
      end
  end.

(** [str.strip()] *)
Definition strip (s : string) : string := rstrip (lstrip s).

(** [s.startswith(p)], returning what follows the prefix. *)
Fixpoint strip_prefix (p s : string) : option string :=
  match p with
  | EmptyString => Some s
  | String a p' =>
      match s with
      | String b s' => if Ascii.eqb a b then strip_prefix p' s' else None
      | EmptyString => None
      end
  end.

(** [s.partition(sep)] when [sep] occurs in [s]: the text before the
    leftmost occurrence and the text after it. *)
Fixpoint find_split (sep s : string) : option (string * string) :=
  match strip_prefix sep s with
  | Some rest => Some (EmptyString, rest)
  | None =>
      match s with
      | EmptyString => None
      | String c s' =>
          match find_split sep s' with
          | Some (a, b) => Some (String c a, b)
          | None => None
          end
      end
  end.

(** [s.split(sep, maxsplit)] for a non-empty [sep]. *)
Fixpoint split_max (sep s : string) (maxsplit : nat) : list string :=
  match maxsplit with
  | O => [s]
  | S n =>
      match find_split sep s with
      | None => [s]
      | Some (a, b) => a :: split_max sep b n
      end
  end.

(** [s.split(c)] for a one-character separator, no limit. *)
Fixpoint split_char (c : ascii) (s : string) : list string :=
  match s with
  | EmptyString => [EmptyString]
  | String a s' =>
      if Ascii.eqb a c then EmptyString :: split_char c s'
      else
        match split_char c s' with
        | h :: t => String a h :: t
        | [] => [String a EmptyString]
        end
  end.

Definition LF : ascii := ascii_of_nat 10.
Definition CR : ascii := ascii_of_nat 13.
Definition newline : string := String LF EmptyString.

(** Reading a file opened in text mode: universal newlines, so that
    CR LF and a lone CR both arrive as LF. *)
Fixpoint universal_newlines (s : string) : string :=
  match s with
  | EmptyString => EmptyString
  | String c s' =>
      if Ascii.eqb c CR then
        match s' with
        | String c' s'' =>
            if Ascii.eqb c' LF then String LF (universal_newlines s'')
            else String LF (universal_newlines s')
        | EmptyString => String LF EmptyString
        end
      else String c (universal_newlines s')
  end.

(** Every character of [s] satisfies [p]. *)
Fixpoint all_chars (p : ascii -> bool) (s : string) : bool :=
  match s with
  | EmptyString => true
  | String c s' => p c && all_chars p s'
  end.

(** [sep in s] *)
Fixpoint contains (sep s : string) : bool :=
  match strip_prefix sep s with
  | Some _ => true
  | None =>
      match s with
      | EmptyString => false
      | String _ s' => contains sep s'
      end
  end.

(* ================================================================= *)
(** ** Aware datetimes ([datetime.datetime] with a fixed-offset [tzinfo]) *)

(** The calendar fields are those of the local time; [utcoffset] is the
    offset east of UTC in microseconds ([tzinfo.utcoffset]).  The
    program only builds datetimes with a zero [microsecond], which is
    therefore not a field. *)
Record datetime := mk_datetime {
  year : Z; month : Z; day : Z;
  hour : Z; minute : Z; second : Z;
  utcoffset : Z
}.

Definition is_leap (y : Z) : bool :=
  (y mod 4 =? 0) && (negb (y mod 100 =? 0) || (y mod 400 =? 0)).

Definition days_in_month (y m : Z) : Z :=
  if (m =? 2) && is_leap y then 29
  else nth (Z.to_nat m) [0; 31; 28; 31; 30; 31; 30; 31; 31; 30; 31; 30; 31] 0.

Definition days_before_year (y : Z) : Z :=
  let p := y - 1 in p * 365 + p / 4 - p / 100 + p / 400.

Definition days_before_month (y m : Z) : Z :=
  nth (Z.to_nat m) [0; 0; 31; 59; 90; 120; 151; 181; 212; 243; 273; 304; 334] 0
  + (if (2 <? m) && is_leap y then 1 else 0).

(** Proleptic Gregorian ordinal of a date, 0001-01-01 being day 1. *)
Definition ymd2ord (y m d : Z) : Z :=
  days_before_year y + days_before_month y m + d.

(** [timezone(offset)] accepts offsets strictly between -24h and 24h. *)
Definition timezone_ok (off : Z) : bool :=
  (-86400000000 <? off) && (off <? 86400000000).

Definition fields_ok (y m d hh mm ss : Z) : bool :=
  (1 <=? y) && (y <=? 9999) && (1 <=? m) && (m <=? 12)
  && (1 <=? d) && (d <=? days_in_month y m)
  && (0 <=? hh) && (hh <=? 23) && (0 <=? mm) && (mm <=? 59)
  && (0 <=? ss) && (ss <=? 59).

(** The class invariant of [datetime]. *)
Definition datetime_valid (t : datetime) : bool :=
  fields_ok (year t) (month t) (day t) (hour t) (minute t) (second t)
  && timezone_ok (utcoffset t).

(** [datetime(y, m, d, hh, mm, ss, tzinfo=timezone(off))];
    [None] is the [ValueError] of an out-of-range argument. *)
Definition datetime_new (y m d hh mm ss off : Z) : option datetime :=
  if fields_ok y m d hh mm ss && timezone_ok off
  then Some (mk_datetime y m d hh mm ss off)
  else None.

(** The instant of an aware datetime, in microseconds since the start
    of day 0 in UTC.  Aware datetimes are ordered by their instants. *)
Definition utc_instant (t : datetime) : Z :=
  (ymd2ord (year t) (month t) (day t) * 86400
   + hour t * 3600 + minute t * 60 + second t) * 1000000
  - utcoffset t.

(** [a > b] on aware datetimes. *)
Definition datetime_gt (a b : datetime) : bool := utc_instant b <? utc_instant a.

(** [a < b], the comparison [list.sort] uses on the keys. *)
Definition datetime_lt (a b : datetime) : bool := utc_instant a <? utc_instant b.

(* ----------------------------------------------------------------- *)
(** *** Formatting *)

Definition digit_char (n : Z) : ascii := ascii_of_nat (48 + Z.to_nat n).

Fixpoint zfill_onto (width : nat) (n : Z) (acc : string) : string :=
  match width with
  | O => acc
  | S w => zfill_onto w (n / 10) (String (digit_char (n mod 10)) acc)
  end.

(** ["%0<width>d" % n] for [0 <= n < 10 ^ width]. *)
Definition zfill (width : nat) (n : Z) : string := zfill_onto width n EmptyString.

(** The [%z] directive of [strftime]: [+HHMM], [+HHMMSS] when the offset
    has seconds, [+HHMMSS.ffffff] when it has microseconds. *)
Definition format_utcoffset (off : Z) : string :=
  let a := Z.abs off in
  let us := a mod 1000000 in
  let s := a / 1000000 in
  (if off <? 0 then "-" else "+")
  ++ zfill 2 (s / 3600) ++ zfill 2 (s / 60 mod 60)
  ++ (if negb (us =? 0) then zfill 2 (s mod 60) ++ "." ++ zfill 6 us
      else if negb (s mod 60 =? 0) then zfill 2 (s mod 60)
      else "").

Fixpoint decimal_onto (fuel : nat) (n : Z) (acc : string) : string :=
  match fuel with
  | O => acc
  | S fuel' =>
      let acc := String (digit_char (n mod 10)) acc in
      if n <? 10 then acc else decimal_onto fuel' (n / 10) acc
  end.

(** ["%d" % n] for [0 <= n]: the decimal digits, without padding. *)
Definition decimal (n : Z) : string :=
  decimal_onto (S (Z.to_nat n)) n EmptyString.

(** [t.strftime("%Y-%m-%dT%H:%M:%S%z")].  [datetime.strftime] expands
    [%z] itself and hands the rest to [strftime] of the C library; that
    of Linux (glibc) writes [%Y] as the year in decimal without leading
    zeros, so that the year 999 is written with three digits. *)
Definition strftime_iso (t : datetime) : string :=
  decimal (year t) ++ "-" ++ zfill 2 (month t) ++ "-" ++ zfill 2 (day t)
  ++ "T" ++ zfill 2 (hour t) ++ ":" ++ zfill 2 (minute t) ++ ":"
  ++ zfill 2 (second t) ++ format_utcoffset (utcoffset t).

Definition month_name (m : Z) : string :=
  nth (Z.to_nat m)
    [""; "January"; "February"; "March"; "April"; "May"; "June"; "July";
     "August"; "September"; "October"; "November"; "December"] "".

(** [t.strftime("%d %B %Y at %H:%M:%S")] in the C locale, the year
    again without leading zeros. *)
Definition strftime_long (t : datetime) : string :=
  zfill 2 (day t) ++ " " ++ month_name (month t) ++ " " ++ decimal (year t)
  ++ " at " ++ zfill 2 (hour t) ++ ":" ++ zfill 2 (minute t) ++ ":"
  ++ zfill 2 (second t).

(* ----------------------------------------------------------------- *)
(** *** Parsing

    [datetime.strptime(text, "%Y-%m-%dT%H:%M:%S%z")] compiles the format
    to the regular expression (CPython 3.7 to 3.12, case-insensitive)

      (?P<Y>\d\d\d\d)-(?P<m>1[0-2]|0[1-9]|[1-9])-
      (?P<d>3[0-1]|[1-2]\d|0[1-9]|[1-9]| [1-9])T
      (?P<H>2[0-3]|[0-1]\d|\d):(?P<M>[0-5]\d|\d):(?P<S>6[0-1]|[0-5]\d|\d)
      (?P<z>[+-]\d\d:?[0-5]\d(:?[0-5]\d(\.\d{1,6})?)?|(?-i:Z))

    matches it at the start of the text, and raises [ValueError] when
    the match fails, when text remains after it, or when the fields do
    not make a datetime.  Every numeric group is followed by a literal
    that is no digit, so the first alternative of a group that matches
    is the only one that can lead to a match: ordered choice without
    backtracking decides the same language. *)

Definition digit_val (c : ascii) : option Z :=
  let n := nat_of_ascii c in
  if ((48 <=? n)%nat && (n <=? 57)%nat)%bool then Some (Z.of_nat n - 48) else None.

Definition parser (A : Type) : Type := string -> option (A * string).

(** One digit between [lo] and [hi]: the class [[lo-hi]]. *)
Definition digit_in (lo hi : Z) : parser Z := fun s =>
  match s with
  | String c r =>
      match digit_val c with
      | Some v => if (lo <=? v) && (v <=? hi) then Some (v, r) else None
      | None => None
      end
  | EmptyString => None
  end.

(** Two digits, the classes [[alo-ahi][blo-bhi]]. *)
Definition two_digits (alo ahi blo bhi : Z) : parser Z := fun s =>
  match digit_in alo ahi s with
  | Some (a, r) =>
      match digit_in blo bhi r with
      | Some (b, r') => Some (10 * a + b, r')
      | None => None
      end
  | None => None
  end.

(** Ordered choice [p|q]. *)
Definition orelse {A : Type} (p q : parser A) : parser A := fun s =>
  match p s with
  | Some x => Some x
  | None => q s
  end.

(** A literal character. *)
Definition lit (c : ascii) (s : string) : option string :=
  match s with
  | String a r => if Ascii.eqb a c then Some r else None
  | EmptyString => None
  end.

(** An optional literal character, [c?]; the flag tells whether it was there. *)
Definition opt_lit (c : ascii) (s : string) : bool * string :=
  match lit c s with
  | Some r => (true, r)
  | None => (false, s)
  end.

Definition re_Y : parser Z := fun s =>
  match two_digits 0 9 0 9 s with
  | Some (hi, r) =>
      match two_digits 0 9 0 9 r with
      | Some (lo, r') => Some (100 * hi + lo, r')
      | None => None
      end
  | None => None
  end.

Definition re_m : parser Z :=
  orelse (two_digits 1 1 0 2) (orelse (two_digits 0 0 1 9) (digit_in 1 9)).

Definition re_d : parser Z :=
  orelse (two_digits 3 3 0 1)
    (orelse (two_digits 1 2 0 9)
       (orelse (two_digits 0 0 1 9)
          (orelse (digit_in 1 9)
             (fun s => match lit " " s with
                       | Some r => digit_in 1 9 r
                       | None => None
                       end)))).

Definition re_H : parser Z :=
  orelse (two_digits 2 2 0 3) (orelse (two_digits 0 1 0 9) (digit_in 0 9)).

Definition re_M : parser Z :=
  orelse (two_digits 0 5 0 9) (digit_in 0 9).

Definition re_S : parser Z :=
  orelse (two_digits 6 6 0 1) (orelse (two_digits 0 5 0 9) (digit_in 0 9)).

(** At most [n] leading digits, [\d{0,n}] taken greedily. *)
Fixpoint take_digits (n : nat) (s : string) : list Z * string :=
  match n with
  | O => ([], s)
  | S n' =>
      match s with
      | String c r =>
          match digit_val c with
          | Some v => let (ds, r') := take_digits n' r in (v :: ds, r')
          | None => ([], s)
          end
      | EmptyString => ([], s)
      end
  end.

(** [int(digits + "0" * (6 - len(digits)))] *)
Definition fraction_value (ds : list Z) : Z :=
  fold_left (fun acc d => 10 * acc + d) ds 0 * 10 ^ (6 - Z.of_nat (List.length ds)).

(** [\.\d{1,6}], valued in microseconds. *)
Definition re_fraction : parser Z := fun s =>
  match lit "." s with
  | Some r =>
      match take_digits 6 r with
      | ([], _) => None
      | (ds, r') => Some (fraction_value ds, r')
      end
  | None => None
  end.

(** The group [z] and its conversion to an offset in microseconds.
    A colon before the minutes and none before the seconds, or the
    reverse, is the [ValueError] "Inconsistent use of :". *)
Definition re_z : parser Z := fun s =>
  match s with
  | EmptyString => None
  | String c r =>
      if Ascii.eqb c "Z" then Some (0, r)
      else if Ascii.eqb c "+" || Ascii.eqb c "-" then
        let sign := if Ascii.eqb c "-" then -1 else 1 in
        match two_digits 0 9 0 9 r with
        | None => None
        | Some (hh, r1) =>
            let (colon1, r2) := opt_lit ":" r1 in
            match two_digits 0 5 0 9 r2 with
            | None => None
            | Some (mm, r3) =>
                let (colon2, r4) := opt_lit ":" r3 in
                match two_digits 0 5 0 9 r4 with
                | None => Some (sign * ((hh * 3600 + mm * 60) * 1000000), r3)
                | Some (ss, r5) =>
                    let (us, r6) :=
                      match re_fraction r5 with
                      | Some (u, r') => (u, r')
                      | None => (0, r5)
                      end in
                    if Bool.eqb colon1 colon2
                    then Some (sign * ((hh * 3600 + mm * 60 + ss) * 1000000 + us), r6)
                    else None
                end
            end
        end
      else None
  end.

(** The literal [T] of the format, matched without regard to case. *)
Definition lit_T (s : string) : option string :=
  match lit "T" s with
  | Some r => Some r
  | None => lit "t" s
  end.

(** [datetime.strptime(text, "%Y-%m-%dT%H:%M:%S%z")] *)
Definition strptime_iso (text : string) : option datetime :=
  match re_Y text with None => None | Some (y, r1) =>
  match lit "-" r1 with None => None | Some r2 =>
  match re_m r2 with None => None | Some (m, r3) =>
  match lit "-" r3 with None => None | Some r4 =>
  match re_d r4 with None => None | Some (d, r5) =>
  match lit_T r5 with None => None | Some r6 =>
  match re_H r6 with None => None | Some (hh, r7) =>
  match lit ":" r7 with None => None | Some r8 =>
  match re_M r8 with None => None | Some (mm, r9) =>
  match lit ":" r9 with None => None | Some r10 =>
  match re_S r10 with None => None | Some (ss, r11) =>
  match re_z r11 with None => None | Some (off, rest) =>
  match rest with
  | EmptyString => datetime_new y m d hh mm ss off
  | String _ _ => None
  end end end end end end end end end end end end end.

(** A date format, as the two functions the pattern stands for when it
    is handed to [datetime.strptime] and to [datetime.strftime]. *)
Record DateFormat := mk_format {
  strptime : string -> option datetime;
  strftime : datetime -> string
}.

Definition DATE_FORMAT : DateFormat := mk_format strptime_iso strftime_iso.

(* ================================================================= *)
(** ** Dictionaries in insertion order *)

Definition dict (V : Type) : Type := list (string * V).

(** [d.get(k)] *)
Fixpoint dict_get {V : Type} (d : dict V) (k : string) : option V :=
  match d with
  | [] => None
  | (k', v) :: d' => if String.eqb k' k then Some v else dict_get d' k
  end.

(** [k in d] *)
Definition dict_contains {V : Type} (d : dict V) (k : string) : bool :=
  match dict_get d k with
  | Some _ => true
  | None => false
  end.

(** [d[k] = v]: a present key keeps its place, a new key goes last. *)
Fixpoint dict_set {V : Type} (d : dict V) (k : string) (v : V) : dict V :=
  match d with
  | [] => [(k, v)]
  | (k', v') :: d' =>
      if String.eqb k' k then (k', v) :: d' else (k', v') :: dict_set d' k v
  end.

(** In-place mutation of the object stored under [k]: [f] applied to [d[k]]. *)
Fixpoint dict_alter {V : Type} (f : V -> V) (d : dict V) (k : string) : dict V :=
  match d with
  | [] => []
  | (k', v) :: d' =>
      if String.eqb k' k then (k', f v) :: d' else (k', v) :: dict_alter f d' k
  end.

Definition dict_keys {V : Type} (d : dict V) : list string := map fst d.

(** [d.values()] *)
Definition dict_values {V : Type} (d : dict V) : list V := map snd d.

(* ================================================================= *)
(** ** Data classes *)

Definition Url : Type := string.

Record Entry := mk_Entry {
  entry_url : string;
  entry_title : string;
  pub_date : datetime
}.

Record Feed := mk_Feed {
  url : Url;
  title : option string;
  entries : list Entry;
  retrieval_failed : bool;
  newest_retrieved_date : option datetime;
  is_enabled : bool
}.

(** [Feed(url, is_enabled=enabled)] with the defaults of the data class. *)
Definition new_Feed (u : Url) (enabled : bool) : Feed :=
  mk_Feed u None [] false None enabled.

Definition set_newest_retrieved_date (v : option datetime) (f : Feed) : Feed :=
  mk_Feed (url f) (title f) (entries f) (retrieval_failed f) v (is_enabled f).

Definition set_retrieval_failed (v : bool) (f : Feed) : Feed :=
  mk_Feed (url f) (title f) (entries f) v (newest_retrieved_date f) (is_enabled f).

Definition set_title (v : option string) (f : Feed) : Feed :=
  mk_Feed (url f) v (entries f) (retrieval_failed f) (newest_retrieved_date f)
    (is_enabled f).

Definition set_entries (v : list Entry) (f : Feed) : Feed :=
  mk_Feed (url f) (title f) v (retrieval_failed f) (newest_retrieved_date f)
    (is_enabled f).

(** [Entry.get_info] *)
Definition Entry_get_info (e : Entry) : string :=
  "  Entry: " ++ entry_title e ++ newline
  ++ "   Link: " ++ entry_url e ++ newline
  ++ "   Date: " ++ strftime_long (pub_date e).

(** The suffix [retrieval_failed_msg] computed by [Feed.get_info]. *)
Definition retrieval_failed_msg (f : Feed) : string :=
  if retrieval_failed f then " (retrieval failed)" else "".

(** Truth value of an [Optional[str]]: [None] and the empty text are false. *)
Definition truthy (t : option string) : bool :=
  match t with
  | Some (String _ _) => true
  | _ => false
  end.

(** [Feed.get_info] *)
Definition Feed_get_info (f : Feed) : string :=
  match title f with
  | Some (String c t) =>
      "Feed: " ++ String c t ++ retrieval_failed_msg f ++ newline
      ++ " URL: " ++ url f
  | _ => "Feed: " ++ url f
  end.

(* ================================================================= *)
(** ** What [feedparser.parse] returns *)

(** The six fields of [published_parsed] that the program reads. *)
Record struct_time := mk_struct_time {
  tm_year : Z; tm_mon : Z; tm_mday : Z;
  tm_hour : Z; tm_min : Z; tm_sec : Z
}.

(** One member of [data.entries]; [None] is an absent key.  The key
    [published_parsed], when it is there, holds a time or [None]:
    feedparser stores [None] for a date that none of its parsers reads. *)
Record ParsedEntry := mk_ParsedEntry {
  published_parsed : option (option struct_time);
  link : option string;
  parsed_title : option string
}.

(** The result of [feedparser.parse]: the [bozo] key, the [title] key of
    [data["feed"]], and [data.entries]. *)
Record ParsedFeed := mk_ParsedFeed {
  bozo : option bool;
  feed_title : option string;
  parsed_entries : list ParsedEntry
}.

(* ================================================================= *)
(** ** The environment of a run *)

Inductive FileEvent :=
| OpenRead (path : string)
| OpenWrite (path : string)
| Touch (path : string).

Record World := mk_World {
  home : string;                          (* the home directory *)
  files : string -> option string;        (* content of each existing file *)
  feedparser_parse : Url -> ParsedFeed;   (* the network, as seen by feedparser *)
  stdout : list string;                   (* one element for each [print] *)
  stderr : list string;
  trace : list FileEvent                  (* file operations, oldest first *)
}.

Definition log (e : FileEvent) (w : World) : World :=
  mk_World (home w) (files w) (feedparser_parse w) (stdout w) (stderr w)
    (trace w ++ [e]).

Definition write_file (path content : string) (w : World) : World :=
  mk_World (home w)
    (fun p => if String.eqb p path then Some content else files w p)
    (feedparser_parse w) (stdout w) (stderr w) (trace w).

Definition print_out (lines : list string) (w : World) : World :=
  mk_World (home w) (files w) (feedparser_parse w) (stdout w ++ lines) (stderr w)
    (trace w).

Definition print_err (line : string) (w : World) : World :=
  mk_World (home w) (files w) (feedparser_parse w) (stdout w) (stderr w ++ [line])
    (trace w).

(** [s.rstrip("/")] *)
Fixpoint rstrip_slash (s : string) : string :=
  match s with
  | EmptyString => EmptyString
  | String c s' =>
      match rstrip_slash s' with
      | EmptyString => if Ascii.eqb c "/" then EmptyString else String c EmptyString
      | r => String c r
      end
  end.

(** [os.path.expanduser] on a path [~/...]: the home directory without
    its trailing slashes, followed by what follows the tilde.  The
    program expands no other path. *)
Definition expanduser (w : World) (path : string) : string :=
  match path with
  | String "~" (String "/" _ as rest) => rstrip_slash (home w) ++ rest
  | _ => path
  end.

Definition FEED_FILE (w : World) : string := expanduser w "~/.plaintextfeeds".
Definition DATA_FILE (w : World) : string := expanduser w "~/.plaintextfeeds.data".

(* ================================================================= *)
(** ** The program *)

(** The lines kept by [get_url_list]: stripped, not empty, no comment. *)
Definition is_url_line (line : string) : bool :=
  match line with
  | EmptyString => false
  | String c _ => negb (Ascii.eqb c "#")
  end.

Definition url_lines (text : string) : list Url :=
  filter is_url_line (map strip (split_char LF text)).

(** [get_url_list] *)
Definition get_url_list (feed_file : string) (w : World) : list Url * World :=
  let w := log (OpenRead feed_file) w in
  match files w feed_file with
  | Some raw => (url_lines (universal_newlines raw), w)
  | None => ([], write_file feed_file "" (log (Touch feed_file) w))
  end.

(** The body of the loop over the lines of the data file. *)
Definition load_line (date_format : DateFormat) (feed_data : dict Feed)
    (line : string) : dict Feed :=
  match split_max "last updated" line 2 with
  | [] => feed_data
  | part0 :: rest =>
      let u := strip part0 in
      if (String.length u =? 0)%nat then feed_data
      else
        let newest :=
          match rest with
          | part1 :: _ => strptime date_format (strip part1)
          | [] => None
          end in
        let feed_data :=
          if negb (dict_contains feed_data u)
          then dict_set feed_data u (new_Feed u false)
          else feed_data in
        dict_alter (set_newest_retrieved_date newest) feed_data u
  end.

(** The first loop of [get_feed_data]. *)
Definition configured (urls : list Url) : dict Feed :=
  fold_left (fun d u => dict_set d u (new_Feed u true)) urls [].

(** [get_feed_data] on the text of the data file. *)
Definition load_feed_data (date_format : DateFormat) (urls : list Url)
    (text : string) : dict Feed :=
  fold_left (load_line date_format) (split_char LF text) (configured urls).

(** [get_feed_data] *)
Definition get_feed_data (data_file : string) (date_format : DateFormat)
    (urls : list Url) (w : World) : dict Feed * World :=
  let w := log (OpenRead data_file) w in
  match files w data_file with
  | Some raw => (load_feed_data date_format urls (universal_newlines raw), w)
  | None => (configured urls, w)
  end.

(** [entry.get(key, default)] *)
Definition get_default (v : option string) (default : string) : string :=
  match v with
  | Some s => s
  | None => default
  end.

(** [w is None or t > w] *)
Definition is_after (t : datetime) (w : option datetime) : bool :=
  match w with
  | None => true
  | Some d => datetime_gt t d
  end.

(** The exceptions that the program raises and does not catch. *)
Inductive Exception := ValueError | TypeError | OverflowError.

(** A call that returns a value, or raises. *)
Inductive result (A : Type) : Type :=
| Returns (a : A)
| Raises (e : Exception).

Arguments Returns {A} a.
Arguments Raises {A} e.

(** An [int] that fits the [int] of C, 32 bits wide. *)
Definition fits_int (n : Z) : bool :=
  (-2147483648 <=? n) && (n <=? 2147483647).

(** [datetime(year, month, day, hour, minute, second, tzinfo=timezone.utc)]
    on the six fields of [tm].  The constructor first converts its
    arguments to C integers, with [OverflowError] for one that does not
    fit, and then checks their ranges, with [ValueError]. *)
Definition datetime_utc (tm : struct_time) : result datetime :=
  if fits_int (tm_year tm) && fits_int (tm_mon tm) && fits_int (tm_mday tm)
     && fits_int (tm_hour tm) && fits_int (tm_min tm) && fits_int (tm_sec tm)
  then
    match datetime_new (tm_year tm) (tm_mon tm) (tm_mday tm)
            (tm_hour tm) (tm_min tm) (tm_sec tm) 0 with
    | Some t => Returns t
    | None => Raises ValueError
    end
  else Raises OverflowError.

(** The loop of [update_feed] over [data.entries]: [watermark] is
    [feed.newest_retrieved_date], which the loop never assigns, [acc] is
    [feed.entries] and [newest] is [newest_pub_date].  An entry without
    the key [published_parsed] is skipped; one that holds [None] under
    it passes the test of the key, and the unpacking of [None] raises
    [TypeError]. *)
Fixpoint update_loop (watermark : option datetime) (items : list ParsedEntry)
    (acc : list Entry) (newest : option datetime)
    : result (list Entry * option datetime) :=
  match items with
  | [] => Returns (acc, newest)
  | entry :: items' =>
      match published_parsed entry with
      | None => update_loop watermark items' acc newest
      | Some None => Raises TypeError
      | Some (Some tm) =>
          match datetime_utc tm with
          | Raises e => Raises e
          | Returns t =>
              if is_after t watermark then
                let u := get_default (link entry) "(URL missing)" in
                let ti := get_default (parsed_title entry) "(Title missing)" in
                update_loop watermark items' (acc ++ [mk_Entry u ti t])%list
                  (if is_after t newest then Some t else newest)
              else update_loop watermark items' acc newest
          end
      end
  end.

(** Insertion of [e] into a list in descending order of [pub_date],
    before the first element that is not later than [e]. *)
Fixpoint insert_desc (e : Entry) (l : list Entry) : list Entry :=
  match l with
  | [] => [e]
  | x :: l' =>
      if datetime_lt (pub_date e) (pub_date x) then x :: insert_desc e l'
      else e :: l
  end.

(** [entries.sort(key=lambda article: article.pub_date, reverse=True)].
    [list.sort] is stable, also when reversed, and the output of a
    stable sort is determined by its input and the order of the keys;
    the insertion sort below is stable, so it returns that output. *)
Definition sort_by_pub_date_reverse (l : list Entry) : list Entry :=
  fold_right insert_desc [] l.

(** ["bozo" in data and data["bozo"]] *)
Definition fetch_failed (data : ParsedFeed) : bool :=
  match bozo data with
  | Some b => b
  | None => false
  end.

(** The assignment of [update_feed] to [feed.title]. *)
Definition retitled (data : ParsedFeed) (feed : Feed) : Feed :=
  match feed_title data with
  | Some t => set_title (Some t) feed
  | None => feed
  end.

(** [update_feed], [parse] being [feedparser.parse]. *)
Definition update_feed (parse : Url -> ParsedFeed) (feed : Feed) : result Feed :=
  let data := parse (url feed) in
  if fetch_failed data then Returns (set_retrieval_failed true feed)
  else
    let feed := retitled data feed in
    match update_loop (newest_retrieved_date feed) (parsed_entries data)
            (entries feed) (newest_retrieved_date feed) with
    | Raises e => Raises e
    | Returns (found, newest_pub_date) =>
        Returns (set_newest_retrieved_date newest_pub_date
                   (set_entries (sort_by_pub_date_reverse found) feed))
    end.

(** The line of the data file written for one feed. *)
Definition data_line (date_format : DateFormat) (feed : Feed) : string :=
  match newest_retrieved_date feed with
  | Some t => url feed ++ " last updated " ++ strftime date_format t
  | None => url feed
  end.

(** The text of a file to which each line is written with its newline. *)
Definition write_lines (lines : list string) : string :=
  fold_right (fun line text => line ++ newline ++ text) "" lines.

(** The text written by [save_feed_data]. *)
Definition saved_text (date_format : DateFormat) (feed_data : dict Feed) : string :=
  write_lines (map (data_line date_format) (dict_values feed_data)).

(** [save_feed_data] *)
Definition save_feed_data (data_file : string) (date_format : DateFormat)
    (feed_data : dict Feed) (w : World) : World :=
  write_file data_file (saved_text date_format feed_data)
    (log (OpenWrite data_file) w).

(** The loop of [main] that updates the enabled feeds in place. *)
Fixpoint update_all (parse : Url -> ParsedFeed) (feed_data : dict Feed)
    : result (dict Feed) :=
  match feed_data with
  | [] => Returns []
  | (k, feed) :: rest =>
      if is_enabled feed then
        match update_feed parse feed with
        | Raises e => Raises e
        | Returns feed' =>
            match update_all parse rest with
            | Raises e => Raises e
            | Returns rest' => Returns ((k, feed') :: rest')
            end
        end
      else
        match update_all parse rest with
        | Raises e => Raises e
        | Returns rest' => Returns ((k, feed) :: rest')
        end
  end.

(** The first reporting loop of [main]: what it prints, and the list
    [feeds_without_new_articles] it builds. *)
Fixpoint report_new (feeds : list Feed) : list string * list Feed :=
  match feeds with
  | [] => ([], [])
  | feed :: rest =>
      let (out, without) := report_new rest in
      if negb (is_enabled feed) then (out, without)
      else if (List.length (entries feed) =? 0)%nat then (out, feed :: without)
      else ((Feed_get_info feed :: map Entry_get_info (entries feed)
             ++ "" :: out)%list,
            without)
  end.

(** The second reporting loop of [main]. *)
Definition report_without (without : list Feed) : list string :=
  if (0 <? List.length without)%nat then
    "Feeds without new articles:"
    :: map Feed_get_info (filter is_enabled without)
  else [].

(** Everything [main] prints after the data file is saved. *)
Definition report (feeds : list Feed) : list string :=
  let (out, without) := report_new feeds in
  (out ++ report_without without)%list.

(** How a run of [main] ends: it returns, it leaves through
    [sys.exit], or an exception leaves it uncaught. *)
Inductive Outcome :=
| Returned
| SystemExit (code : Z)
| Uncaught (e : Exception).

(** The exit status of the interpreter. *)
Definition exit_status (o : Outcome) : Z :=
  match o with
  | Returned => 0
  | SystemExit code => code
  | Uncaught _ => 1
  end.

(** The diagnostic printed when no URL is configured. *)
Definition no_urls_message (feed_file : string) : string :=
  "No URLs listed in " ++ feed_file ++ "; exiting.".

(** [main] *)
Definition main (w : World) : Outcome * World :=
  let feed_file := FEED_FILE w in
  let data_file := DATA_FILE w in
  let date_format := DATE_FORMAT in
  let (feeds, w1) := get_url_list feed_file w in
  if (List.length feeds =? 0)%nat then
    (SystemExit 0,
     print_err (no_urls_message feed_file) w1)
  else
    let (feed_data, w2) := get_feed_data data_file date_format feeds w1 in
    match update_all (feedparser_parse w2) feed_data with
    | Raises e => (Uncaught e, w2)
    | Returns updated =>
        let w3 := save_feed_data data_file date_format updated w2 in
        (Returned, print_out (report (dict_values updated)) w3)
    end.

(* ================================================================= *)
(** ** The vocabulary of the specification *)

(** The usable published time of an item: its [published_parsed] as a
    UTC datetime, when the key is there and holds a calendar time. *)
Definition published_time (item : ParsedEntry) : option datetime :=
  match published_parsed item with
  | Some (Some tm) =>
      datetime_new (tm_year tm) (tm_mon tm) (tm_mday tm)
        (tm_hour tm) (tm_min tm) (tm_sec tm) 0
  | _ => None
  end.

(** An item on which the loop of [update_feed] does not raise: it has
    no [published_parsed], or one that is a calendar time.  Feedparser
    also hands out items that are not so: a [published_parsed] that is
    [None], or one with a year 10000. *)
Definition well_formed_item (item : ParsedEntry) : bool :=
  match published_parsed item with
  | Some (Some tm) =>
      fields_ok (tm_year tm) (tm_mon tm) (tm_mday tm)
        (tm_hour tm) (tm_min tm) (tm_sec tm)
  | Some None => false
  | None => true
  end.

(** A parsed feed all of whose items are well formed. *)
Definition well_formed_feed (data : ParsedFeed) : bool :=
  forallb well_formed_item (parsed_entries data).

(** The value of a call that returned. *)
Definition returned {A : Type} (r : result A) : option A :=
  match r with
  | Returns a => Some a
  | Raises _ => None
  end.



(** The time [t] is strictly later than the watermark [w]. *)
Definition later_than (w : option datetime) (t : datetime) : Prop :=
  match w with
  | None => True
  | Some d => utc_instant d < utc_instant t
  end.

(** The order of watermarks: an absent one is below every other. *)
Definition watermark_le (a b : option datetime) : Prop :=
  match a, b with
  | None, _ => True
  | Some x, Some y => utc_instant x <= utc_instant y
  | Some _, None => False
  end.

(** The entry recorded for an item published at [t]. *)
Definition entry_of (item : ParsedEntry) (t : datetime) : Entry :=
  mk_Entry (get_default (link item) "(URL missing)")
    (get_default (parsed_title item) "(Title missing)") t.

(** The new items of the specification: those with a published time
    strictly greater than the watermark, in the order of the input. *)
Fixpoint new_items (w : option datetime) (items : list ParsedEntry) : list Entry :=
  match items with
  | [] => []
  | item :: rest =>
      match published_time item with
      | Some t =>
          if is_after t w then entry_of item t :: new_items w rest
          else new_items w rest
      | None => new_items w rest
      end
  end.

(** [max(a, b)] of Python on datetimes: [b] only when it is greater. *)
Definition max_datetime (a b : datetime) : datetime :=
  if datetime_gt b a then b else a.

(** The advanced watermark of the specification: the maximum of the
    original watermark and the published times of the new items. *)
Definition advanced_watermark (w : option datetime) (new : list Entry)
    : option datetime :=
  match new with
  | [] => w
  | e :: rest =>
      let m := fold_left max_datetime (map pub_date rest) (pub_date e) in
      match w with
      | None => Some m
      | Some d => Some (max_datetime d m)
      end
  end.



(** Successive runs on one source: each run starts from a fresh [Feed]
    that carries the watermark of the run before, and meets its own
    state of the network.  The result lists the watermark after each run. *)
Fixpoint watermarks_of_runs (u : Url) (w : option datetime)
    (nets : list (Url -> ParsedFeed)) : option (list (option datetime)) :=
  match nets with
  | [] => Some []
  | parse :: rest =>
      match update_feed parse (set_newest_retrieved_date w (new_Feed u true)) with
      | Raises _ => None
      | Returns feed' =>
          match watermarks_of_runs u (newest_retrieved_date feed') rest with
          | None => None
          | Some ws => Some (newest_retrieved_date feed' :: ws)
          end
      end
  end.

(** The running maximum kept in [newest_pub_date]. *)
Definition advance (newest : option datetime) (t : datetime) : option datetime :=
  if is_after t newest then Some t else newest.

(** Descending order of published times. *)
Definition newest_first (a b : Entry) : Prop :=
  utc_instant (pub_date b) <= utc_instant (pub_date a).

(** The entries published at the instant [i], in the order of the list. *)
Definition published_at (i : Z) (l : list Entry) : list Entry :=
  filter (fun e => utc_instant (pub_date e) =? i) l.

(** The record a line of the state file stands for: its URL and its
    watermark, absent when the line has none or one that does not parse.
    Lines without a URL stand for nothing. *)
Definition parse_line (date_format : DateFormat) (line : string)
    : option (Url * option datetime) :=
  match split_max "last updated" line 2 with
  | [] => None
  | part0 :: rest =>
      let u := strip part0 in
      if (String.length u =? 0)%nat then None
      else Some (u, match rest with
                    | part1 :: _ => strptime date_format (strip part1)
                    | [] => None
                    end)
  end.

(** The persisted watermark records of a state file, in file order. *)
Definition persisted_records (date_format : DateFormat) (lines : list string)
    : list (Url * option datetime) :=
  flat_map (fun line => match parse_line date_format line with
                        | Some r => [r]
                        | None => []
                        end) lines.

(** The watermark persisted for [u]: that of its last record. *)
Fixpoint persisted_watermark (records : list (Url * option datetime)) (u : Url)
    : option (option datetime) :=
  match records with
  | [] => None
  | (u', w) :: rest =>
      match persisted_watermark rest u with
      | Some w' => Some w'
      | None => if String.eqb u' u then Some w else None
      end
  end.

(** Storing one record in the working set: the source is created
    disabled when it is not there, and takes the watermark. *)
Definition store_record (feed_data : dict Feed) (r : Url * option datetime)
    : dict Feed :=
  dict_alter (set_newest_retrieved_date (snd r))
    (if negb (dict_contains feed_data (fst r))
     then dict_set feed_data (fst r) (new_Feed (fst r) false)
     else feed_data)
    (fst r).

(** The lines [get_feed_data] reads from the data file; none when the
    file is missing. *)
Definition data_lines (data_file : string) (w : World) : list string :=
  match files w data_file with
  | Some raw => split_char LF (universal_newlines raw)
  | None => []
  end.

(** The file an event is about. *)
Definition event_path (e : FileEvent) : string :=
  match e with
  | OpenRead path => path
  | OpenWrite path => path
  | Touch path => path
  end.

(** The sources as [main] holds them once the update loop is over;
    none when [main] leaves before (no URL configured) or during the
    loop (an exception). *)
Definition sources_after_run (w : World) : list Feed :=
  let (feeds, w1) := get_url_list (FEED_FILE w) w in
  if (List.length feeds =? 0)%nat then []
  else
    let (feed_data, w2) := get_feed_data (DATA_FILE w) DATE_FORMAT feeds w1 in
    match update_all (feedparser_parse w2) feed_data with
    | Returns updated => dict_values updated
    | Raises _ => []
    end.

(** A source as the load leaves it: no title, no failure recorded. *)
Definition untouched (f : Feed) : Prop :=
  title f = None /\ retrieval_failed f = false /\ entries f = [].

(** A source that failed has no title. *)
Definition failed_implies_untitled (f : Feed) : Prop :=
  retrieval_failed f = true -> title f = None.

(** Characters that end a line when a text file is read. *)
Definition is_newline (c : ascii) : bool := Ascii.eqb c LF || Ascii.eqb c CR.

Definition not_newline (c : ascii) : bool := negb (is_newline c).

Definition not_space (c : ascii) : bool := negb (isspace c).

Definition not_CR (c : ascii) : bool := negb (Ascii.eqb c CR).

(** The characters [strftime] produces for the date format. *)
Definition timestamp_char (c : ascii) : bool :=
  match digit_val c with
  | Some _ => true
  | None =>
      Ascii.eqb c "-" || Ascii.eqb c "T" || Ascii.eqb c ":" || Ascii.eqb c "+"
      || Ascii.eqb c "."
  end.

(** A URL as the program reads it from its two files: not empty,
    without surrounding whitespace, without line end. *)
Definition url_read (u : Url) : bool :=
  negb (String.length u =? 0)%nat
  && String.eqb (strip u) u
  && all_chars not_newline u.

(** A URL that a line of the state file can carry: as the program
    reads it, and free of the separator token. *)
Definition url_ok (u : Url) : bool :=
  url_read u && negb (contains "last updated" u).

(** A watermark that is a datetime, or none. *)
Definition watermark_valid (w : option datetime) : bool :=
  match w with
  | Some t => datetime_valid t
  | None => true
  end.

(** A source as the program holds it: stored under its own URL, a URL
    as read, with a watermark that is a datetime. *)
Definition source_read (kv : string * Feed) : bool :=
  String.eqb (url (snd kv)) (fst kv)
  && url_read (fst kv)
  && watermark_valid (newest_retrieved_date (snd kv)).

(** A watermark whose year has four digits, the only years that
    [strptime] reads with [%Y]. *)
Definition four_digit_year (w : option datetime) : bool :=
  match w with
  | Some t => 1000 <=? year t
  | None => true
  end.

(** A source that the state file can carry: its URL is free of the
    separator token and the year of its watermark has four digits. *)
Definition source_ok (kv : string * Feed) : bool :=
  source_read kv && negb (contains "last updated" (fst kv))
  && four_digit_year (newest_retrieved_date (snd kv)).

Fixpoint unique (keys : list string) : bool :=
  match keys with
  | [] => true
  | k :: rest => negb (existsb (String.eqb k) rest) && unique rest
  end.

(** A working set in order: every source as the program holds it, no
    URL twice. *)
Definition in_order (d : dict Feed) : Prop :=
  Forall (fun kv => source_read kv = true) d /\ unique (dict_keys d) = true.

(** A source set: a dictionary of such sources. *)
Definition sources_ok (d : dict Feed) : bool :=
  forallb source_ok d && unique (dict_keys d).


(** A run of [update_feed] that cannot raise: the fetch failed, or
    every item is well formed. *)
Definition run_ok (u : Url) (parse : Url -> ParsedFeed) : bool :=
  fetch_failed (parse u) || well_formed_feed (parse u).

(* ================================================================= *)
(** ** Scenarios *)

Definition item_at (y m d : Z) : ParsedEntry :=
  mk_ParsedEntry (Some (Some (mk_struct_time y m d 0 0 0)))
    (Some "https://example.com/post") (Some "Post").

Definition undated_item : ParsedEntry := mk_ParsedEntry None None None.

(** An item whose date feedparser could not read: the key is there
    and holds [None]. *)
Definition unreadable_item : ParsedEntry :=
  mk_ParsedEntry (Some None) (Some "https://example.com/undated") (Some "Undated").

(** A feed with items of February and March 2024 and an undated one. *)
Definition example_net (u : Url) : ParsedFeed :=
  mk_ParsedFeed (Some false) (Some "Example")
    [item_at 2024 2 1; undated_item; item_at 2024 3 1; item_at 2024 2 1].

(** A fetch that fails. *)
Definition failing_net (u : Url) : ParsedFeed :=
  mk_ParsedFeed (Some true) None [].

Definition example_url : Url := "https://example.com/feed".

(** A world with the two files of the program in the home directory
    [/home/user] and nothing printed yet. *)
Definition world_with (config data : option string) (net : Url -> ParsedFeed)
    : World :=
  mk_World "/home/user"
    (fun path =>
       if String.eqb path "/home/user/.plaintextfeeds" then config
       else if String.eqb path "/home/user/.plaintextfeeds.data" then data
       else None)
    net [] [] [].

(** The state file of scenario 5, followed by a line in good order. *)
Definition malformed_line : string :=
  "https://example.com/feed last updated not-a-date".

Definition good_line : string :=
  "https://example.com/other last updated 2024-01-01T00:00:00+0000".

Definition scenario5_world : World :=
  world_with (Some ("https://example.com/feed" ++ newline))
    (Some (malformed_line ++ newline ++ good_line ++ newline))
    failing_net.

(** A configuration with a comment and blank lines only. *)
Definition unconfigured_world : World :=
  world_with (Some ("# no feeds yet" ++ newline ++ "   " ++ newline))
    (Some (good_line ++ newline)) example_net.

(** A source set with a watermark east of UTC and a source without
    watermark. *)
Definition example_sources : dict Feed :=
  [("https://example.com/feed",
    mk_Feed "https://example.com/feed" (Some "Example") [] false
      (Some (mk_datetime 2024 3 1 12 30 45 19800000000)) true);
   ("https://example.com/other",
    mk_Feed "https://example.com/other" None [] true None false)].

(** A configured URL that contains the separator of the state file. *)
Definition separator_url : Url := "https://example.com/last updated/feed".



(** A network on which the first example source fails and every other
    one answers, and a world configured with two sources whose state
    file was written by the program. *)
Definition mixed_net (u : Url) : ParsedFeed :=
  if String.eqb u "https://example.com/feed" then failing_net u else example_net u.

Definition mixed_world : World :=
  world_with
    (Some ("https://example.com/feed" ++ newline
           ++ "https://example.com/other" ++ newline))
    (Some (saved_text DATE_FORMAT example_sources))
    mixed_net.

(** The working set of a run after the update loop. *)
Definition run_updated (w : World) : dict Feed :=
  let (feeds, w1) := get_url_list (FEED_FILE w) w in
  match update_all (feedparser_parse w)
          (fst (get_feed_data (DATA_FILE w) DATE_FORMAT feeds w1)) with
  | Returns updated => updated
  | Raises _ => []
  end.


(** A network that answers every URL with the given items. *)
Definition feed_of_items (items : list ParsedEntry) (u : Url) : ParsedFeed :=
  mk_ParsedFeed (Some false) None items.

(** A feed with a dated item and one whose date could not be read, and
    a first run on it. *)
Definition unreadable_net (u : Url) : ParsedFeed :=
  feed_of_items [item_at 2024 1 1; unreadable_item] u.

Definition unreadable_world : World :=
  world_with (Some ("https://example.com/feed" ++ newline)) None unreadable_net.

Definition utc_midnight (y m d : Z) : datetime := mk_datetime y m d 0 0 0 0.

(** The entry recorded for [item_at y m d]. *)
Definition post_at (y m d : Z) : Entry :=
  mk_Entry "https://example.com/post" "Post" (utc_midnight y m d).

(** A source with the given watermark, as a run finds it. *)
Definition source_with (w : option datetime) : Feed :=
  set_newest_retrieved_date w (new_Feed example_url true).

(* ================================================================= *)
(** ** Further vocabulary *)

(** A URL that a line of the configuration file can carry: as the
    program reads it, and no comment. *)
Definition configurable (u : Url) : bool := url_read u && is_url_line u.

(** The keys of a dictionary to which [new] are added in turn: a key
    that is there keeps its place, a new one goes last. *)
Fixpoint add_keys (keys new : list string) : list string :=
  match new with
  | [] => keys
  | k :: rest =>
      add_keys (if existsb (String.eqb k) keys then keys else (keys ++ [k])%list) rest
  end.

(** A configuration with a URL listed twice. *)
Definition listed_urls : list Url :=
  ["https://example.com/feed"; "https://example.com/other";
   "https://example.com/feed"].

Definition listed_world : World :=
  world_with (Some (write_lines listed_urls)) None example_net.

(** The same configuration with and without a comment line. *)
Definition commented_world : World :=
  world_with
    (Some (write_lines (["https://example.com/feed"]
                        ++ "  # paused" :: ["https://example.com/other"])))
    None example_net.

Definition uncommented_world : World :=
  world_with
    (Some (write_lines (["https://example.com/feed"]
                        ++ ["https://example.com/other"])))
    None example_net.

(** The source as the next run finds it: a fresh [Feed] with the
    watermark this run left. *)
Definition at_next_run (feed : Feed) : Feed :=
  set_newest_retrieved_date (newest_retrieved_date feed)
    (new_Feed (url feed) (is_enabled feed)).


(** The world after the configuration file was opened and read. *)
Definition config_read (w : World) : World := log (OpenRead (FEED_FILE w)) w.

(** The world after the state file was opened as well. *)
Definition state_read (w : World) : World :=
  log (OpenRead (DATA_FILE w)) (config_read w).

(** The file operations of a run, by its outcome. *)
Definition run_events (w : World) (o : Outcome) : list FileEvent :=
  match o with
  | Returned =>
      [OpenRead (FEED_FILE w); OpenRead (DATA_FILE w); OpenWrite (DATA_FILE w)]
  | Uncaught _ => [OpenRead (FEED_FILE w); OpenRead (DATA_FILE w)]
  | SystemExit _ =>
      match files w (FEED_FILE w) with
      | Some _ => [OpenRead (FEED_FILE w)]
      | None => [OpenRead (FEED_FILE w); Touch (FEED_FILE w)]
      end
  end.

(** A source with new entries, and what [main] prints for it. *)
Definition has_new (f : Feed) : bool :=
  is_enabled f && negb (List.length (entries f) =? 0)%nat.

Definition block (f : Feed) : list string :=
  (Feed_get_info f :: map Entry_get_info (entries f) ++ [""])%list.

(** An enabled source without new entries. *)
Definition caught_up (f : Feed) : bool :=
  is_enabled f && (List.length (entries f) =? 0)%nat.




(** The source of [separator_sources]. *)
Definition separator_feed : Feed :=
  mk_Feed separator_url None [] false (Some (mk_datetime 2024 1 1 0 0 0 0)) true.

(** A state file that names one URL on two lines, and a first run. *)
Definition twice_world : World :=
  world_with (Some ("https://example.com/other" ++ newline))
    (Some (good_line ++ newline
           ++ "https://example.com/other last updated yesterday" ++ newline))
    example_net.

Definition first_run_world : World :=
  world_with (Some (write_lines listed_urls)) None failing_net.

(** A line of the state file with indentation and trailing blanks. *)
Definition padded_line : string :=
  "   https://example.com/other last updated 2024-01-01T00:00:00+0000  ".

(* ================================================================= *)
(** * Properties *)

(** Linear arithmetic with division and remainder by constants. *)
Ltac div_lia := Z.to_euclidean_division_equations; lia.

(** ** The update engine *)

Lemma is_after_later_than t w : is_after t w = true <-> later_than w t.
Proof.
  destruct w as [d|]; simpl; [|tauto].
  unfold datetime_gt. apply Z.ltb_lt.
Qed.

Lemma datetime_new_utc_ok tm :
  fields_ok (tm_year tm) (tm_mon tm) (tm_mday tm)
    (tm_hour tm) (tm_min tm) (tm_sec tm) = true ->
  datetime_new (tm_year tm) (tm_mon tm) (tm_mday tm)
    (tm_hour tm) (tm_min tm) (tm_sec tm) 0
  = Some (mk_datetime (tm_year tm) (tm_mon tm) (tm_mday tm)
            (tm_hour tm) (tm_min tm) (tm_sec tm) 0).
Proof. intros H. unfold datetime_new. rewrite H. reflexivity. Qed.

Lemma fields_ok_bounds y m d hh mm ss :
  fields_ok y m d hh mm ss = true ->
  1 <= y <= 9999 /\ 1 <= m <= 12 /\ 1 <= d <= 31
  /\ 0 <= hh <= 23 /\ 0 <= mm <= 59 /\ 0 <= ss <= 59.
Proof.
  unfold fields_ok. rewrite !andb_true_iff, !Z.leb_le.
  intros (((((((((((? & ?) & ?) & ?) & ?) & Hd) & ?) & ?) & ?) & ?) & ?) & ?).
  assert (days_in_month y m <= 31).
  { unfold days_in_month. destruct ((m =? 2) && is_leap y); [lia|].
    assert (E : m = 1 \/ m = 2 \/ m = 3 \/ m = 4 \/ m = 5 \/ m = 6 \/ m = 7
                \/ m = 8 \/ m = 9 \/ m = 10 \/ m = 11 \/ m = 12) by lia.
    repeat (destruct E as [-> | E]; [simpl; lia|]). subst. simpl. lia. }
  lia.
Qed.

(** The constructor accepts a calendar time ... *)
Lemma datetime_utc_ok tm :
  fields_ok (tm_year tm) (tm_mon tm) (tm_mday tm)
    (tm_hour tm) (tm_min tm) (tm_sec tm) = true ->
  datetime_utc tm
  = Returns (mk_datetime (tm_year tm) (tm_mon tm) (tm_mday tm)
               (tm_hour tm) (tm_min tm) (tm_sec tm) 0).
Proof.
  intros H. unfold datetime_utc. rewrite (datetime_new_utc_ok tm H).
  apply fields_ok_bounds in H.
  assert (Hfit : forall n, -2147483648 <= n <= 2147483647 -> fits_int n = true).
  { intros n Hn. unfold fits_int. apply andb_true_iff.
    split; apply Z.leb_le; lia. }
  rewrite !Hfit by lia. reflexivity.
Qed.


Lemma datetime_utc_returns tm t :
  datetime_utc tm = Returns t ->
  datetime_new (tm_year tm) (tm_mon tm) (tm_mday tm)
    (tm_hour tm) (tm_min tm) (tm_sec tm) 0 = Some t.
Proof.
  unfold datetime_utc.
  destruct (fits_int (tm_year tm) && fits_int (tm_mon tm) && fits_int (tm_mday tm)
            && fits_int (tm_hour tm) && fits_int (tm_min tm) && fits_int (tm_sec tm));
    [|discriminate].
  destruct (datetime_new _ _ _ _ _ _ _) as [t'|]; [|discriminate].
  intros H. injection H as ->. reflexivity.
Qed.


(** On well-formed items the loop ends normally, having appended the
    new items and folded their times into the running maximum. *)
Lemma update_loop_new_items w items :
  forallb well_formed_item items = true ->
  forall acc newest,
    update_loop w items acc newest
    = Returns ((acc ++ new_items w items)%list,
               fold_left advance (map pub_date (new_items w items)) newest).
Proof.
  induction items as [|item items IH]; intros Hwf acc newest; simpl.
  - now rewrite app_nil_r.
  - simpl in Hwf. apply andb_true_iff in Hwf. destruct Hwf as [Hitem Hwf].
    specialize (IH Hwf).
    unfold published_time, well_formed_item in *.
    destruct (published_parsed item) as [[tm|]|]; [|discriminate|apply IH].
    rewrite (datetime_utc_ok tm Hitem), (datetime_new_utc_ok tm Hitem).
    destruct (is_after _ w); [|apply IH].
    rewrite IH, <- app_assoc. reflexivity.
Qed.


Lemma new_items_In w items e :
  In e (new_items w items) <->
  exists item t, In item items /\ published_time item = Some t
                 /\ later_than w t /\ e = entry_of item t.
Proof.
  induction items as [|item items IH]; simpl.
  - split; [tauto | intros (i & t & [] & _)].
  - assert (Hrest : In e (new_items w items) ->
              exists i t, (item = i \/ In i items) /\ published_time i = Some t
                          /\ later_than w t /\ e = entry_of i t).
    { rewrite IH. intros (i & t & Hi & H). exists i, t. tauto. }
    destruct (published_time item) as [t|] eqn:Et.
    + destruct (is_after t w) eqn:Ea.
      * split.
        -- intros [<- | Hin]; [|auto].
           exists item, t. rewrite <- is_after_later_than. tauto.
        -- intros (i & t' & [-> | Hi] & Ht & Hl & ->).
           ++ left. congruence.
           ++ right. apply IH. exists i, t'. auto.
      * split; [exact Hrest|].
        intros (i & t' & [-> | Hi] & Ht & Hl & ->); [|apply IH; exists i, t'; auto].
        apply is_after_later_than in Hl. congruence.
    + split; [exact Hrest|].
      intros (i & t' & [-> | Hi] & Ht & Hl & ->); [congruence | apply IH; exists i, t'; auto].
Qed.

(** *** Sorting *)

Lemma insert_desc_perm e l : Permutation (insert_desc e l) (e :: l).
Proof.
  induction l as [|x l IH]; simpl; [reflexivity|].
  destruct (datetime_lt (pub_date e) (pub_date x)); [|reflexivity].
  rewrite IH. apply perm_swap.
Qed.

Lemma sort_perm l : Permutation (sort_by_pub_date_reverse l) l.
Proof.
  induction l as [|x l IH]; simpl; [reflexivity|].
  rewrite insert_desc_perm. now constructor.
Qed.

Lemma insert_desc_sorted e l :
  StronglySorted newest_first l -> StronglySorted newest_first (insert_desc e l).
Proof.
  induction 1 as [|x l Hl IH Hx]; simpl.
  - repeat constructor.
  - unfold datetime_lt.
    destruct (Z.ltb_spec (utc_instant (pub_date e)) (utc_instant (pub_date x))) as [Hlt|Hge].
    + constructor; [exact IH|].
      rewrite Forall_forall in *. intros y Hy.
      apply (Permutation_in _ (insert_desc_perm e l)) in Hy.
      destruct Hy as [<- | Hy]; [unfold newest_first; lia | auto].
    + constructor; [constructor; assumption|].
      constructor; [exact Hge|].
      rewrite Forall_forall in *. intros y Hy.
      specialize (Hx y Hy). unfold newest_first in *. lia.
Qed.

Lemma sort_sorted l : StronglySorted newest_first (sort_by_pub_date_reverse l).
Proof.
  induction l as [|x l IH]; simpl; [constructor | now apply insert_desc_sorted].
Qed.

Lemma insert_desc_published_at i e l :
  StronglySorted newest_first l ->
  published_at i (insert_desc e l) = published_at i (e :: l).
Proof.
  induction 1 as [|x l Hl IH Hx]; [reflexivity|].
  simpl insert_desc. unfold datetime_lt.
  destruct (Z.ltb_spec (utc_instant (pub_date e)) (utc_instant (pub_date x))) as [Hlt|Hge];
    [|reflexivity].
  unfold published_at in *. simpl in *.
  destruct (Z.eqb_spec (utc_instant (pub_date x)) i) as [Hxi|Hxi].
  - destruct (Z.eqb_spec (utc_instant (pub_date e)) i) as [Hei|Hei]; [lia|].
    now rewrite IH.
  - rewrite IH. reflexivity.
Qed.

(** The sort is stable: entries of one instant keep their order. *)
Lemma sort_stable i l :
  published_at i (sort_by_pub_date_reverse l) = published_at i l.
Proof.
  induction l as [|x l IH]; [reflexivity|].
  simpl sort_by_pub_date_reverse.
  rewrite insert_desc_published_at by apply sort_sorted.
  unfold published_at in *. simpl. now rewrite IH.
Qed.

(** *** The running maximum *)

Lemma new_items_later w items e :
  In e (new_items w items) -> later_than w (pub_date e).
Proof.
  rewrite new_items_In. intros (item & t & _ & _ & Hl & ->). exact Hl.
Qed.

Lemma fold_advance_max l m :
  fold_left advance l (Some m) = Some (fold_left max_datetime l m).
Proof.
  revert m. induction l as [|t l IH]; intros m; [reflexivity|].
  simpl. unfold advance at 2, max_datetime at 2. simpl.
  destruct (datetime_gt t m); apply IH.
Qed.

Lemma fold_max_bounds l m :
  let r := fold_left max_datetime l m in
  In r (m :: l) /\ forall x, In x (m :: l) -> utc_instant x <= utc_instant r.
Proof.
  revert m. induction l as [|t l IH]; intros m; simpl.
  - split; [auto | intros x [<- | []]; lia].
  - destruct (IH (max_datetime m t)) as [Hin Hub]. simpl in Hin, Hub.
    assert (Hm : utc_instant m <= utc_instant (max_datetime m t)
                 /\ utc_instant t <= utc_instant (max_datetime m t)
                 /\ (max_datetime m t = m \/ max_datetime m t = t)).
    { unfold max_datetime, datetime_gt.
      destruct (Z.ltb_spec (utc_instant m) (utc_instant t)); split; try lia; auto with zarith. }
    destruct Hm as (Hm1 & Hm2 & Hm3). split.
    + destruct Hin as [Hin | Hin]; [|auto].
      rewrite <- Hin. destruct Hm3 as [-> | ->]; auto.
    + intros x [<- | [<- | Hx]].
      * specialize (Hub _ (or_introl eq_refl)). lia.
      * specialize (Hub _ (or_introl eq_refl)). lia.
      * apply Hub. auto.
Qed.

Lemma watermark_le_refl w : watermark_le w w.
Proof. destruct w; simpl; [lia | exact I]. Qed.

Lemma watermark_le_trans a b c :
  watermark_le a b -> watermark_le b c -> watermark_le a c.
Proof. destruct a, b, c; simpl; try tauto; lia. Qed.

(** What the loop leaves in [newest_pub_date], when it starts from the
    watermark itself. *)
Lemma fold_advance_watermark w new :
  (forall e, In e new -> later_than w (pub_date e)) ->
  fold_left advance (map pub_date new) w = advanced_watermark w new.
Proof.
  destruct new as [|e rest]; intros Hlater; [reflexivity|].
  simpl fold_left. unfold advance at 2.
  rewrite (proj2 (is_after_later_than (pub_date e) w)) by (apply Hlater; simpl; auto).
  rewrite fold_advance_max. unfold advanced_watermark.
  destruct w as [d|]; [|reflexivity].
  destruct (fold_max_bounds (map pub_date rest) (pub_date e)) as [_ Hub].
  specialize (Hub (pub_date e) (or_introl eq_refl)).
  assert (Hd : later_than (Some d) (pub_date e)) by (apply Hlater; simpl; auto).
  simpl in Hd.
  set (m := fold_left max_datetime (map pub_date rest) (pub_date e)) in *.
  f_equal. unfold max_datetime, datetime_gt.
  destruct (Z.ltb_spec (utc_instant d) (utc_instant m)); [reflexivity | lia].
Qed.

Lemma advanced_watermark_max w new :
  (forall e, In e new -> later_than w (pub_date e)) ->
  new <> [] ->
  exists e, In e new /\ advanced_watermark w new = Some (pub_date e)
            /\ later_than w (pub_date e)
            /\ forall e', In e' new ->
                 utc_instant (pub_date e') <= utc_instant (pub_date e).
Proof.
  destruct new as [|e0 rest]; [congruence|]. intros Hlater _.
  destruct (fold_max_bounds (map pub_date rest) (pub_date e0)) as [Hin Hub].
  change (pub_date e0 :: map pub_date rest) with (map pub_date (e0 :: rest)) in *.
  apply in_map_iff in Hin. destruct Hin as (e & He & Hine).
  exists e. split; [exact Hine|]. split; [|split; [auto|]].
  - rewrite <- fold_advance_watermark by exact Hlater.
    simpl fold_left. unfold advance at 2.
    rewrite (proj2 (is_after_later_than (pub_date e0) w)) by (apply Hlater; simpl; auto).
    rewrite fold_advance_max. congruence.
  - intros e' He'. rewrite He. apply Hub. now apply in_map.
Qed.

(** *** [update_feed] on a fetch that succeeded *)

Lemma retitled_fields data feed :
  url (retitled data feed) = url feed
  /\ entries (retitled data feed) = entries feed
  /\ newest_retrieved_date (retitled data feed) = newest_retrieved_date feed
  /\ retrieval_failed (retitled data feed) = retrieval_failed feed
  /\ is_enabled (retitled data feed) = is_enabled feed.
Proof. unfold retitled. destruct (feed_title data); simpl; auto. Qed.

Lemma update_feed_success parse feed :
  fetch_failed (parse (url feed)) = false ->
  well_formed_feed (parse (url feed)) = true ->
  let data := parse (url feed) in
  let w := newest_retrieved_date feed in
  let new := new_items w (parsed_entries data) in
  update_feed parse feed
  = Returns (set_newest_retrieved_date (advanced_watermark w new)
               (set_entries (sort_by_pub_date_reverse (entries feed ++ new))
                  (retitled data feed))).
Proof.
  intros Hbozo Hwf data w new. unfold update_feed. fold data.
  subst data. rewrite Hbozo.
  destruct (retitled_fields (parse (url feed)) feed) as (_ & He & Hw & _).
  rewrite Hw, He. fold w.
  rewrite (update_loop_new_items w _ Hwf). fold new.
  rewrite fold_advance_watermark by (intros e; apply new_items_later).
  reflexivity.
Qed.

Lemma update_feed_failure parse feed :
  fetch_failed (parse (url feed)) = true ->
  update_feed parse feed = Returns (set_retrieval_failed true feed).
Proof. intros H. unfold update_feed. now rewrite H. Qed.


Lemma advanced_watermark_le w new :
  (forall e, In e new -> later_than w (pub_date e)) ->
  watermark_le w (advanced_watermark w new).
Proof.
  intros Hlater. destruct new as [|e0 rest] eqn:E; [apply watermark_le_refl|].
  rewrite <- E in *.
  destruct (advanced_watermark_max w new Hlater) as (e & _ & -> & Hl & _);
    [congruence|].
  destruct w as [d|]; simpl in *; [lia | exact I].
Qed.




(** C1. An item whose [published_parsed] holds [None] has no usable
    published time, and by the claim it is left out without effect: of
    the two items of [unreadable_net], the dated one alone is new.  The
    code skips an item only when the key is absent.  Here the update
    raises [TypeError] instead of returning that result, the run ends
    with the exception uncaught and saves no state; without the item
    the same update returns.  A [published_parsed] that is no calendar
    time (a year 10000) has no usable published time either, and
    raises [ValueError]. *)
Theorem unreadable_date_is_not_excluded :
  published_time unreadable_item = None
  /\ new_items None (parsed_entries (unreadable_net example_url))
     = [post_at 2024 1 1]
  /\ update_feed unreadable_net (new_Feed example_url true) = Raises TypeError
  /\ update_feed (feed_of_items [item_at 2024 1 1]) (new_Feed example_url true)
     = Returns (mk_Feed example_url None [post_at 2024 1 1] false
                  (Some (utc_midnight 2024 1 1)) true)
  /\ main unreadable_world = (Uncaught TypeError, state_read unreadable_world)
  /\ files (snd (main unreadable_world)) (DATA_FILE unreadable_world) = None
  /\ published_time (item_at 10000 1 1) = None
  /\ update_feed (feed_of_items [item_at 2024 1 1; item_at 10000 1 1])
       (new_Feed example_url true)
     = Raises ValueError.
Proof. repeat split. Qed.



(** C2. After a fetch that succeeded, on items whose published times
    are calendar times, the update returns and the watermark is the
    maximum of the watermark before and the published times of the new
    items: it
    is exactly the watermark before (absent if it was absent) when no
    item is new, and otherwise the published time of a new item that no
    new item exceeds, itself strictly later than the watermark before. *)
Theorem update_feed_advances_watermark (parse : Url -> ParsedFeed) (feed : Feed) :
  fetch_failed (parse (url feed)) = false ->
  well_formed_feed (parse (url feed)) = true ->
  let w := newest_retrieved_date feed in
  let new := new_items w (parsed_entries (parse (url feed))) in
  exists feed',
    update_feed parse feed = Returns feed'
    /\ newest_retrieved_date feed' = advanced_watermark w new
    /\ (new = [] -> newest_retrieved_date feed' = w)
    /\ (new <> [] ->
        exists e, In e new
          /\ newest_retrieved_date feed' = Some (pub_date e)
          /\ later_than w (pub_date e)
          /\ forall e', In e' new ->
               utc_instant (pub_date e') <= utc_instant (pub_date e)).
Proof.
  intros Hok Hwf w new.
  pose proof (update_feed_success parse feed Hok Hwf) as Hup.
  cbv zeta in Hup. fold w new in Hup.
  eexists. split; [exact Hup|]. simpl.
  split; [reflexivity|]. split.
  - intros ->. reflexivity.
  - intros Hne. apply advanced_watermark_max; [|exact Hne].
    intros e. apply new_items_later.
Qed.

Lemma update_feed_advances_watermark_witness :
  fetch_failed (example_net example_url) = false
  /\ well_formed_feed (example_net example_url) = true
  /\ exists feed',
       update_feed example_net (new_Feed example_url true) = Returns feed'
       /\ newest_retrieved_date feed'
          = advanced_watermark None
              (new_items None (parsed_entries (example_net example_url)))
       /\ (new_items None (parsed_entries (example_net example_url)) = [] ->
           newest_retrieved_date feed' = None)
       /\ (new_items None (parsed_entries (example_net example_url)) <> [] ->
           exists e,
             In e (new_items None (parsed_entries (example_net example_url)))
             /\ newest_retrieved_date feed' = Some (pub_date e)
             /\ later_than None (pub_date e)
             /\ forall e',
                  In e' (new_items None (parsed_entries (example_net example_url))) ->
                  utc_instant (pub_date e') <= utc_instant (pub_date e)).
Proof.
  split; [reflexivity|]. split; [reflexivity|].
  apply (update_feed_advances_watermark example_net (new_Feed example_url true));
    reflexivity.
Defined.

(** Whatever the feed and the fetch, an update that returns leaves a
    watermark that is not below the one it found. *)
Lemma update_feed_watermark_le parse feed :
  run_ok (url feed) parse = true ->
  exists feed',
    update_feed parse feed = Returns feed'
    /\ watermark_le (newest_retrieved_date feed) (newest_retrieved_date feed').
Proof.
  unfold run_ok. intros Hok.
  destruct (fetch_failed (parse (url feed))) eqn:Hf.
  - rewrite (update_feed_failure parse feed Hf). eexists. split; [reflexivity|].
    apply watermark_le_refl.
  - simpl in Hok. rewrite (update_feed_success parse feed Hf Hok).
    eexists. split; [reflexivity|]. simpl.
    apply advanced_watermark_le. intros e. apply new_items_later.
Qed.

(** C3. Over any sequence of successive runs on one source, failed
    fetches included, each run starting from the watermark the run
    before left, every update returns (the items being well formed) and
    the watermarks form a non-decreasing sequence that starts at the
    initial watermark: no run leaves a watermark below the one it
    started from or below any earlier one. *)
Theorem watermark_never_regresses (u : Url) (nets : list (Url -> ParsedFeed)) :
  forall w : option datetime,
  forallb (run_ok u) nets = true ->
  exists ws,
    watermarks_of_runs u w nets = Some ws
    /\ StronglySorted watermark_le (w :: ws).
Proof.
  induction nets as [|parse nets IH]; intros w Hok; simpl.
  - exists []. split; [reflexivity|]. repeat constructor.
  - simpl in Hok. apply andb_true_iff in Hok. destruct Hok as [Hrun Hok].
    destruct (update_feed_watermark_le parse
                (set_newest_retrieved_date w (new_Feed u true)) Hrun)
      as (feed' & -> & Hle).
    simpl in Hle.
    destruct (IH (newest_retrieved_date feed') Hok) as (ws & -> & Hsorted).
    eexists. split; [reflexivity|].
    constructor; [exact Hsorted|].
    inversion Hsorted as [|? ? _ Hall]; subst.
    constructor; [exact Hle|].
    eapply Forall_impl; [|exact Hall].
    intros w'. now apply watermark_le_trans.
Qed.

Lemma watermark_never_regresses_witness :
  forallb (run_ok example_url) [example_net; failing_net; example_net] = true
  /\ exists ws,
       watermarks_of_runs example_url None [example_net; failing_net; example_net]
       = Some ws
       /\ StronglySorted watermark_le (None :: ws).
Proof.
  split; [reflexivity|].
  apply (watermark_never_regresses example_url
           [example_net; failing_net; example_net] None).
  reflexivity.
Defined.

(** C5. After a fetch that succeeded, on items whose published times
    are calendar times, the update returns, the entries of the feed are
    in descending order of published time, and the entries published at
    one and the same instant stand in the order they had in the input:
    first those the feed already had, then the new ones in the order of
    the parsed item list. *)
Theorem update_feed_newest_first (parse : Url -> ParsedFeed) (feed : Feed) :
  fetch_failed (parse (url feed)) = false ->
  well_formed_feed (parse (url feed)) = true ->
  let w := newest_retrieved_date feed in
  let items := parsed_entries (parse (url feed)) in
  exists feed',
    update_feed parse feed = Returns feed'
    /\ StronglySorted newest_first (entries feed')
    /\ forall i, published_at i (entries feed')
                 = published_at i (entries feed ++ new_items w items).
Proof.
  intros Hok Hwf w items.
  pose proof (update_feed_success parse feed Hok Hwf) as Hup.
  cbv zeta in Hup. fold w items in Hup.
  eexists. split; [exact Hup|]. simpl.
  split; [apply sort_sorted|].
  intros i. apply sort_stable.
Qed.

Lemma update_feed_newest_first_witness :
  fetch_failed (example_net example_url) = false
  /\ well_formed_feed (example_net example_url) = true
  /\ exists feed',
       update_feed example_net (new_Feed example_url true) = Returns feed'
       /\ StronglySorted newest_first (entries feed')
       /\ forall i, published_at i (entries feed')
                    = published_at i
                        (new_items None (parsed_entries (example_net example_url))).
Proof.
  split; [reflexivity|]. split; [reflexivity|].
  apply (update_feed_newest_first example_net (new_Feed example_url true));
    reflexivity.
Defined.

(** ** Dictionaries *)

Lemma dict_get_set {V} (d : dict V) k v k' :
  dict_get (dict_set d k v) k' = if String.eqb k k' then Some v else dict_get d k'.
Proof.
  induction d as [|[k0 v0] d IH]; simpl.
  - reflexivity.
  - destruct (String.eqb_spec k0 k) as [->|Hne]; simpl.
    + destruct (String.eqb k k'); reflexivity.
    + rewrite IH. destruct (String.eqb_spec k0 k') as [->|Hne']; [|reflexivity].
      destruct (String.eqb_spec k k'); [congruence | reflexivity].
Qed.

Lemma dict_get_alter {V} (f : V -> V) (d : dict V) k k' :
  dict_get (dict_alter f d k) k'
  = if String.eqb k k' then option_map f (dict_get d k) else dict_get d k'.
Proof.
  induction d as [|[k0 v0] d IH]; simpl.
  - destruct (String.eqb k k'); reflexivity.
  - destruct (String.eqb_spec k0 k) as [->|Hne]; simpl.
    + destruct (String.eqb k k'); reflexivity.
    + rewrite IH. destruct (String.eqb_spec k0 k') as [->|Hne']; [|reflexivity].
      destruct (String.eqb_spec k k'); [congruence | reflexivity].
Qed.

Lemma dict_keys_get {V} (d : dict V) k :
  In k (dict_keys d) <-> dict_get d k <> None.
Proof.
  induction d as [|[k0 v0] d IH]; simpl; [tauto|].
  destruct (String.eqb_spec k0 k) as [->|Hne].
  - split; [discriminate | auto].
  - rewrite <- IH. tauto.
Qed.

Lemma dict_keys_alter {V} (f : V -> V) (d : dict V) k :
  dict_keys (dict_alter f d k) = dict_keys d.
Proof.
  induction d as [|[k0 v0] d IH]; simpl; [reflexivity|].
  destruct (String.eqb k0 k); simpl; [reflexivity | now rewrite IH].
Qed.

Lemma dict_keys_set {V} (d : dict V) k v :
  dict_keys (dict_set d k v)
  = if dict_contains d k then dict_keys d else (dict_keys d ++ [k])%list.
Proof.
  unfold dict_contains.
  induction d as [|[k0 v0] d IH]; simpl; [reflexivity|].
  destruct (String.eqb k0 k); simpl; [reflexivity|].
  rewrite IH. destruct (dict_get d k); reflexivity.
Qed.

Lemma existsb_keys_contains {V} (d : dict V) k :
  existsb (String.eqb k) (dict_keys d) = dict_contains d k.
Proof.
  unfold dict_contains.
  induction d as [|[k0 v0] d IH]; [reflexivity|].
  cbn [dict_keys map existsb fst dict_get]. fold (dict_keys d).
  rewrite (String.eqb_sym k k0). destruct (String.eqb k0 k); [reflexivity | exact IH].
Qed.

Lemma unique_app_single l k :
  unique (l ++ [k]) = unique l && negb (existsb (String.eqb k) l).
Proof.
  induction l as [|a l IH]; [reflexivity|].
  cbn [app unique existsb]. rewrite IH, existsb_app. cbn [existsb].
  rewrite (String.eqb_sym k a), orb_false_r.
  destruct (existsb (String.eqb a) l), (String.eqb a k), (unique l),
    (existsb (String.eqb k) l); reflexivity.
Qed.

Lemma unique_dict_set {V} (d : dict V) k v :
  unique (dict_keys d) = true -> unique (dict_keys (dict_set d k v)) = true.
Proof.
  intros Hd. rewrite dict_keys_set.
  destruct (dict_contains d k) eqn:E; [exact Hd|].
  now rewrite unique_app_single, existsb_keys_contains, E, Hd.
Qed.

(** ** Loading the state file *)

Lemma load_line_record fmt d line :
  load_line fmt d line
  = match parse_line fmt line with
    | Some r => store_record d r
    | None => d
    end.
Proof.
  unfold load_line, parse_line.
  destruct (split_max "last updated" line 2) as [|part0 rest]; [reflexivity|].
  simpl. destruct (String.length (strip part0) =? 0)%nat; reflexivity.
Qed.

Lemma load_lines_records fmt lines :
  forall d,
    fold_left (load_line fmt) lines d
    = fold_left store_record (persisted_records fmt lines) d.
Proof.
  induction lines as [|line lines IH]; intros d; [reflexivity|].
  simpl. rewrite fold_left_app, load_line_record, IH.
  destruct (parse_line fmt line); reflexivity.
Qed.

Lemma dict_get_store_record d u w k :
  dict_get (store_record d (u, w)) k
  = if String.eqb u k
    then Some (set_newest_retrieved_date w
                 match dict_get d u with
                 | Some f => f
                 | None => new_Feed u false
                 end)
    else dict_get d k.
Proof.
  unfold store_record, dict_contains. simpl.
  rewrite dict_get_alter.
  destruct (dict_get d u) as [f|] eqn:E; simpl.
  - rewrite E. reflexivity.
  - rewrite !dict_get_set, String.eqb_refl. simpl.
    destruct (String.eqb u k); reflexivity.
Qed.

Lemma set_newest_twice w1 w2 f :
  set_newest_retrieved_date w2 (set_newest_retrieved_date w1 f)
  = set_newest_retrieved_date w2 f.
Proof. reflexivity. Qed.

(** The source found under [k] once all records are stored. *)
Lemma dict_get_store_records records :
  forall d k,
    dict_get (fold_left store_record records d) k
    = match persisted_watermark records k with
      | Some w =>
          Some (set_newest_retrieved_date w
                  match dict_get d k with
                  | Some f => f
                  | None => new_Feed k false
                  end)
      | None => dict_get d k
      end.
Proof.
  induction records as [|[u w] records IH]; intros d k; [reflexivity|].
  simpl. rewrite IH, dict_get_store_record.
  destruct (persisted_watermark records k) as [w'|].
  - destruct (String.eqb_spec u k) as [->|Hne]; reflexivity.
  - destruct (String.eqb_spec u k) as [->|Hne]; reflexivity.
Qed.

Lemma persisted_watermark_some records u :
  persisted_watermark records u <> None <-> In u (map fst records).
Proof.
  induction records as [|[u' w] records IH]; simpl; [tauto|].
  destruct (persisted_watermark records u).
  - split; [intros _; right; apply IH; discriminate | discriminate].
  - destruct (String.eqb_spec u' u) as [->|Hne].
    + split; [auto | discriminate].
    + split; [congruence|]. intros [H|H]; [congruence|]. now apply IH in H.
Qed.

Lemma dict_get_configured_from urls :
  forall d k,
    dict_get (fold_left (fun d u => dict_set d u (new_Feed u true)) urls d) k
    = if existsb (String.eqb k) urls then Some (new_Feed k true) else dict_get d k.
Proof.
  induction urls as [|u urls IH]; intros d k; [reflexivity|].
  simpl. rewrite IH, dict_get_set.
  destruct (existsb (String.eqb k) urls); [now rewrite orb_true_r|].
  rewrite orb_false_r, (String.eqb_sym k u).
  destruct (String.eqb_spec u k) as [->|]; reflexivity.
Qed.

Lemma existsb_eqb_In k urls : existsb (String.eqb k) urls = true <-> In k urls.
Proof.
  rewrite existsb_exists. split.
  - intros (x & Hx & E). apply String.eqb_eq in E. now subst.
  - intros H. exists k. split; [exact H | apply String.eqb_refl].
Qed.

Lemma dict_get_configured urls k :
  dict_get (configured urls) k
  = if existsb (String.eqb k) urls then Some (new_Feed k true) else None.
Proof. apply dict_get_configured_from. Qed.

Lemma get_feed_data_lines data_file fmt urls w :
  fst (get_feed_data data_file fmt urls w)
  = fold_left (load_line fmt) (data_lines data_file (log (OpenRead data_file) w))
      (configured urls).
Proof.
  unfold get_feed_data, data_lines, load_feed_data. simpl.
  destruct (files w data_file); reflexivity.
Qed.

Lemma load_lines_unique fmt lines :
  forall d,
    unique (dict_keys d) = true ->
    unique (dict_keys (fold_left (load_line fmt) lines d)) = true.
Proof.
  induction lines as [|line lines IH]; intros d Hd; [exact Hd|].
  cbn [fold_left]. apply IH. rewrite load_line_record.
  destruct (parse_line fmt line) as [[u wm]|]; [|exact Hd].
  unfold store_record. cbn [fst snd]. rewrite dict_keys_alter.
  destruct (dict_contains d u); cbn [negb]; [exact Hd | now apply unique_dict_set].
Qed.

Lemma configured_unique urls : unique (dict_keys (configured urls)) = true.
Proof.
  unfold configured.
  assert (H : forall d : dict Feed, unique (dict_keys d) = true ->
            unique (dict_keys
              (fold_left (fun d u => dict_set d u (new_Feed u true)) urls d)) = true).
  { induction urls as [|u urls IH]; intros d Hd; [exact Hd|].
    cbn [fold_left]. apply IH. now apply unique_dict_set. }
  now apply H.
Qed.

Lemma data_lines_log data_file e w :
  data_lines data_file (log e w) = data_lines data_file w.
Proof. reflexivity. Qed.

Lemma dict_get_loaded fmt urls lines k :
  dict_get (fold_left (load_line fmt) lines (configured urls)) k
  = match persisted_watermark (persisted_records fmt lines) k with
    | Some w =>
        Some (set_newest_retrieved_date w
                (new_Feed k (existsb (String.eqb k) urls)))
    | None =>
        if existsb (String.eqb k) urls then Some (new_Feed k true) else None
    end.
Proof.
  rewrite load_lines_records, dict_get_store_records, dict_get_configured.
  destruct (existsb (String.eqb k) urls); reflexivity.
Qed.

(** C8. The working set built by [get_feed_data] merges the configured
    URLs with the persisted records: its keys are the URLs that are
    configured or persisted; a configured URL maps to an enabled source
    with the persisted watermark of that URL when there is a record,
    and without watermark otherwise; a persisted URL that is not
    configured maps to a disabled source with its persisted watermark;
    no URL is a key twice. *)
Theorem get_feed_data_merges (data_file : string) (fmt : DateFormat)
    (urls : list Url) (w : World) :
  let records := persisted_records fmt (data_lines data_file w) in
  let merged := fst (get_feed_data data_file fmt urls w) in
  (forall u, In u (dict_keys merged) <-> In u urls \/ In u (map fst records))
  /\ (forall u, In u urls ->
        dict_get merged u
        = Some (set_newest_retrieved_date
                  match persisted_watermark records u with
                  | Some persisted => persisted
                  | None => None
                  end
                  (new_Feed u true)))
  /\ (forall u persisted,
        ~ In u urls ->
        persisted_watermark records u = Some persisted ->
        dict_get merged u
        = Some (set_newest_retrieved_date persisted (new_Feed u false)))
  /\ unique (dict_keys merged) = true.
Proof.
  intros records merged.
  assert (Hget : forall k,
            dict_get merged k
            = match persisted_watermark records k with
              | Some p =>
                  Some (set_newest_retrieved_date p
                          (new_Feed k (existsb (String.eqb k) urls)))
              | None =>
                  if existsb (String.eqb k) urls
                  then Some (new_Feed k true) else None
              end).
  { intros k. subst merged records.
    rewrite get_feed_data_lines, data_lines_log. apply dict_get_loaded. }
  split; [|split; [|split]].
  - intros u. rewrite dict_keys_get, Hget, <- persisted_watermark_some.
    rewrite <- existsb_eqb_In.
    destruct (persisted_watermark records u);
      destruct (existsb (String.eqb u) urls);
      intuition congruence.
  - intros u Hu. rewrite Hget.
    apply existsb_eqb_In in Hu. rewrite Hu.
    destruct (persisted_watermark records u); reflexivity.
  - intros u p Hu Hp. rewrite Hget, Hp.
    destruct (existsb (String.eqb u) urls) eqn:E; [|reflexivity].
    apply existsb_eqb_In in E. contradiction.
  - subst merged. rewrite get_feed_data_lines.
    apply load_lines_unique, configured_unique.
Qed.

Lemma parse_line_malformed fmt line part0 part1 rest :
  split_max "last updated" line 2 = part0 :: part1 :: rest ->
  (String.length (strip part0) =? 0)%nat = false ->
  strptime fmt (strip part1) = None ->
  parse_line fmt line = Some (strip part0, None).
Proof.
  intros Hsplit Hurl Hbad. unfold parse_line.
  rewrite Hsplit. simpl. now rewrite Hurl, Hbad.
Qed.

Lemma persisted_records_app fmt l1 l2 :
  persisted_records fmt (l1 ++ l2)
  = (persisted_records fmt l1 ++ persisted_records fmt l2)%list.
Proof. apply flat_map_app. Qed.

Lemma persisted_watermark_app r1 r2 u :
  persisted_watermark (r1 ++ r2) u
  = match persisted_watermark r2 u with
    | Some w => Some w
    | None => persisted_watermark r1 u
    end.
Proof.
  induction r1 as [|[u' w'] r1 IH]; simpl.
  - destruct (persisted_watermark r2 u); reflexivity.
  - rewrite IH. destruct (persisted_watermark r2 u); reflexivity.
Qed.

(** C7. A line of the state file whose watermark field does not parse
    is read as a record without watermark, and loading goes on: the
    lines after it are processed from the state that record leaves, the
    source of that line is loaded without watermark (unless a later line
    names the same URL), and every other URL is loaded exactly as from
    the file without that line. *)
Theorem malformed_watermark_is_absent (data_file : string) (fmt : DateFormat)
    (urls : list Url) (w : World) (before after : list string)
    (line part0 part1 : string) (rest : list string) :
  data_lines data_file w = (before ++ line :: after)%list ->
  split_max "last updated" line 2 = part0 :: part1 :: rest ->
  (String.length (strip part0) =? 0)%nat = false ->
  strptime fmt (strip part1) = None ->
  let u := strip part0 in
  let loaded := fst (get_feed_data data_file fmt urls w) in
  parse_line fmt line = Some (u, None)
  /\ loaded
     = fold_left (load_line fmt) after
         (store_record (fold_left (load_line fmt) before (configured urls))
            (u, None))
  /\ (persisted_watermark (persisted_records fmt after) u = None ->
      exists feed,
        dict_get loaded u = Some feed /\ newest_retrieved_date feed = None)
  /\ (forall k, k <> u ->
        dict_get loaded k
        = dict_get (fold_left (load_line fmt) (before ++ after) (configured urls)) k).
Proof.
  intros Hlines Hsplit Hurl Hbad u loaded.
  pose proof (parse_line_malformed fmt line part0 part1 rest Hsplit Hurl Hbad) as Hrec.
  fold u in Hrec.
  assert (Hloaded : loaded
            = fold_left (load_line fmt) (before ++ line :: after) (configured urls)).
  { subst loaded. now rewrite get_feed_data_lines, data_lines_log, Hlines. }
  split; [exact Hrec|]. split; [|split].
  - rewrite Hloaded, fold_left_app. simpl.
    now rewrite (load_line_record fmt _ line), Hrec.
  - intros Hlast. rewrite Hloaded, dict_get_loaded.
    rewrite persisted_records_app, persisted_watermark_app. simpl.
    rewrite Hrec. simpl. rewrite Hlast, String.eqb_refl.
    eexists. split; reflexivity.
  - intros k Hk. rewrite Hloaded, !dict_get_loaded.
    rewrite !persisted_records_app, !persisted_watermark_app. simpl.
    rewrite Hrec. simpl.
    destruct (String.eqb_spec u k) as [E|_]; [congruence|].
    destruct (persisted_watermark (persisted_records fmt after) k); reflexivity.
Qed.

Lemma malformed_watermark_is_absent_witness :
  data_lines (DATA_FILE scenario5_world) scenario5_world
  = ([] ++ malformed_line :: [good_line; ""])%list
  /\ split_max "last updated" malformed_line 2
     = ["https://example.com/feed "; " not-a-date"]
  /\ (String.length (strip "https://example.com/feed ") =? 0)%nat = false
  /\ strptime DATE_FORMAT (strip " not-a-date") = None
  /\ exists feed,
       dict_get
         (fst (get_feed_data (DATA_FILE scenario5_world) DATE_FORMAT
                 ["https://example.com/feed"] scenario5_world))
         "https://example.com/feed" = Some feed
       /\ newest_retrieved_date feed = None.
Proof.
  split; [reflexivity|]. split; [reflexivity|].
  split; [reflexivity|]. split; [reflexivity|].
  apply (malformed_watermark_is_absent (DATA_FILE scenario5_world) DATE_FORMAT
           ["https://example.com/feed"] scenario5_world
           [] [good_line; ""] malformed_line
           "https://example.com/feed " " not-a-date" []);
    reflexivity.
Defined.

(** ** The runner *)

Lemma append_inj_l (h a b : string) : h ++ a = h ++ b -> a = b.
Proof.
  induction h as [|c h IH]; simpl; [auto|].
  intros H. injection H as H. auto.
Qed.

Lemma FEED_FILE_neq_DATA_FILE w : FEED_FILE w <> DATA_FILE w.
Proof.
  unfold FEED_FILE, DATA_FILE, expanduser. intros H.
  apply append_inj_l in H. discriminate.
Qed.

(** C9. When the configuration yields no URL, [main] reports it on the
    error stream and exits with status 0; it prints nothing on the
    output stream, and the state file is neither opened nor changed:
    the only file operations are on the configuration file. *)
Theorem main_exits_when_nothing_configured (w : World) :
  fst (get_url_list (FEED_FILE w) w) = [] ->
  exists w',
    main w = (SystemExit 0, w')
    /\ exit_status (fst (main w)) = 0
    /\ stderr w' = (stderr w ++ [no_urls_message (FEED_FILE w)])%list
    /\ stdout w' = stdout w
    /\ files w' (DATA_FILE w) = files w (DATA_FILE w)
    /\ exists events,
         trace w' = (trace w ++ events)%list
         /\ forall e, In e events -> event_path e <> DATA_FILE w.
Proof.
  intros Hempty. unfold main.
  destruct (get_url_list (FEED_FILE w) w) as [feeds w1] eqn:Hlist.
  simpl in Hempty. subst feeds. simpl.
  eexists. split; [reflexivity|]. split; [reflexivity|]. simpl.
  pose proof (FEED_FILE_neq_DATA_FILE w) as Hne.
  unfold get_url_list in Hlist. simpl in Hlist.
  destruct (files w (FEED_FILE w)) as [raw|].
  - assert (Hw1 : w1 = log (OpenRead (FEED_FILE w)) w) by congruence.
    subst w1. simpl. repeat split.
    exists [OpenRead (FEED_FILE w)]. split; [reflexivity|].
    intros e [<- | []]. exact Hne.
  - assert (Hw1 : w1 = write_file (FEED_FILE w) ""
                         (log (Touch (FEED_FILE w)) (log (OpenRead (FEED_FILE w)) w)))
      by congruence.
    subst w1. simpl. repeat split.
    + destruct (String.eqb_spec (DATA_FILE w) (FEED_FILE w)); [congruence | reflexivity].
    + exists [OpenRead (FEED_FILE w); Touch (FEED_FILE w)].
      split; [now rewrite <- app_assoc|].
      intros e [<- | [<- | []]]; exact Hne.
Qed.

Lemma main_exits_when_nothing_configured_witness :
  fst (get_url_list (FEED_FILE unconfigured_world) unconfigured_world) = []
  /\ exists w',
       main unconfigured_world = (SystemExit 0, w')
       /\ exit_status (fst (main unconfigured_world)) = 0
       /\ stderr w'
          = (stderr unconfigured_world
             ++ [no_urls_message (FEED_FILE unconfigured_world)])%list
       /\ stdout w' = stdout unconfigured_world
       /\ files w' (DATA_FILE unconfigured_world)
          = files unconfigured_world (DATA_FILE unconfigured_world)
       /\ exists events,
            trace w' = (trace unconfigured_world ++ events)%list
            /\ forall e, In e events -> event_path e <> DATA_FILE unconfigured_world.
Proof.
  split; [reflexivity|].
  apply (main_exits_when_nothing_configured unconfigured_world).
  reflexivity.
Defined.

(** *** Titles and failures *)

Lemma dict_values_set_Forall {V} (P : V -> Prop) (d : dict V) k v :
  Forall P (dict_values d) -> P v -> Forall P (dict_values (dict_set d k v)).
Proof.
  intros Hd Hv. induction d as [|[k0 v0] d IH]; simpl.
  - constructor; [exact Hv | constructor].
  - inversion Hd; subst.
    destruct (String.eqb k0 k); simpl; constructor; auto.
Qed.

Lemma dict_values_alter_Forall {V} (P : V -> Prop) (f : V -> V) (d : dict V) k :
  Forall P (dict_values d) -> (forall v, P v -> P (f v)) ->
  Forall P (dict_values (dict_alter f d k)).
Proof.
  intros Hd Hf. induction d as [|[k0 v0] d IH]; simpl; [constructor|].
  inversion Hd; subst.
  destruct (String.eqb k0 k); simpl; constructor; auto.
Qed.

Lemma configured_Forall (P : Feed -> Prop) urls :
  (forall u, P (new_Feed u true)) ->
  Forall P (dict_values (configured urls)).
Proof.
  intros HP. unfold configured.
  assert (H : forall d, Forall P (dict_values d) ->
            Forall P (dict_values
              (fold_left (fun d u => dict_set d u (new_Feed u true)) urls d))).
  { induction urls as [|u urls IH]; intros d Hd; simpl; [exact Hd|].
    apply IH. now apply dict_values_set_Forall. }
  apply H. constructor.
Qed.

Lemma load_line_Forall (P : Feed -> Prop) fmt d line :
  (forall u, P (new_Feed u false)) ->
  (forall f v, P f -> P (set_newest_retrieved_date v f)) ->
  Forall P (dict_values d) -> Forall P (dict_values (load_line fmt d line)).
Proof.
  intros Hnew Hset Hd. rewrite load_line_record.
  destruct (parse_line fmt line) as [[u v]|]; [|exact Hd].
  unfold store_record. simpl.
  apply dict_values_alter_Forall; [|auto].
  destruct (dict_contains d u); simpl; [exact Hd|].
  now apply dict_values_set_Forall.
Qed.

Lemma get_feed_data_Forall (P : Feed -> Prop) data_file fmt urls w :
  (forall u b, P (new_Feed u b)) ->
  (forall f v, P f -> P (set_newest_retrieved_date v f)) ->
  Forall P (dict_values (fst (get_feed_data data_file fmt urls w))).
Proof.
  intros Hnew Hset. rewrite get_feed_data_lines.
  generalize (data_lines data_file (log (OpenRead data_file) w)).
  intros lines.
  assert (H : forall d, Forall P (dict_values d) ->
            Forall P (dict_values (fold_left (load_line fmt) lines d))).
  { induction lines as [|line lines IH]; intros d Hd; simpl; [exact Hd|].
    apply IH. apply load_line_Forall; auto. }
  apply H. apply configured_Forall. auto.
Qed.

Lemma update_feed_failed_untitled parse f f' :
  untouched f -> update_feed parse f = Returns f' -> failed_implies_untitled f'.
Proof.
  intros (Ht & Hf & _) Hup. unfold update_feed in Hup.
  destruct (fetch_failed (parse (url f))).
  - injection Hup as <-. intros _. exact Ht.
  - destruct (update_loop _ _ _ _) as [[found newest]|]; [|discriminate].
    injection Hup as <-. intros Hfailed. simpl in Hfailed.
    destruct (retitled_fields (parse (url f)) f) as (_ & _ & _ & Hr & _).
    congruence.
Qed.

Lemma update_all_failed_untitled parse d :
  forall d',
    Forall untouched (dict_values d) ->
    update_all parse d = Returns d' ->
    Forall failed_implies_untitled (dict_values d').
Proof.
  induction d as [|[k f] d IH]; intros d' Hd Hup; simpl in *.
  - injection Hup as <-. constructor.
  - inversion Hd as [|? ? Hf Hrest]; subst.
    destruct (is_enabled f).
    + destruct (update_feed parse f) as [f'|] eqn:Ef; [|discriminate].
      destruct (update_all parse d) as [rest'|]; [|discriminate].
      injection Hup as <-. simpl. constructor; [|now apply IH].
      exact (update_feed_failed_untitled parse f f' Hf Ef).
    + destruct (update_all parse d) as [rest'|]; [|discriminate].
      injection Hup as <-. simpl. constructor; [|now apply IH].
      intros Hfailed. apply Hf.
Qed.

Lemma get_info_without_suffix f :
  failed_implies_untitled f ->
  Feed_get_info f = Feed_get_info (set_retrieval_failed false f).
Proof.
  unfold failed_implies_untitled, Feed_get_info, retrieval_failed_msg. simpl.
  intros H. destruct (title f) as [[|c t]|]; try reflexivity.
  destruct (retrieval_failed f); [|reflexivity].
  specialize (H eq_refl). discriminate.
Qed.

Lemma report_without_suffix feeds :
  Forall failed_implies_untitled feeds ->
  report feeds = report (map (set_retrieval_failed false) feeds).
Proof.
  intros Hall. unfold report.
  assert (H : fst (report_new (map (set_retrieval_failed false) feeds))
              = fst (report_new feeds)
              /\ snd (report_new (map (set_retrieval_failed false) feeds))
                 = map (set_retrieval_failed false) (snd (report_new feeds))
              /\ Forall failed_implies_untitled (snd (report_new feeds))).
  { induction Hall as [|f feeds Hf _ IH]; simpl; [repeat split; constructor|].
    destruct (report_new feeds) as [out without].
    destruct (report_new (map (set_retrieval_failed false) feeds)) as [out' without'].
    simpl in IH. destruct IH as (-> & -> & Hwo).
    destruct (is_enabled f); simpl; [|auto].
    destruct (List.length (entries f) =? 0)%nat; simpl.
    - repeat split. now constructor.
    - rewrite <- get_info_without_suffix by exact Hf. auto. }
  destruct (report_new feeds) as [out without].
  destruct (report_new (map (set_retrieval_failed false) feeds)) as [out' without'].
  simpl in H. destruct H as (-> & -> & Hwo).
  f_equal. unfold report_without. rewrite length_map.
  destruct (0 <? List.length without)%nat; [|reflexivity].
  f_equal. clear - Hwo.
  induction Hwo as [|f l Hf _ IH]; [reflexivity|].
  simpl. destruct (is_enabled f); simpl; [|exact IH].
  rewrite IH. f_equal. now apply get_info_without_suffix.
Qed.

Lemma untouched_new_Feed u b : untouched (new_Feed u b).
Proof. repeat split. Qed.

Lemma untouched_set_newest f v :
  untouched f -> untouched (set_newest_retrieved_date v f).
Proof. intros H. exact H. Qed.

Lemma main_stdout w :
  stdout (snd (main w)) = (stdout w ++ report (sources_after_run w))%list.
Proof.
  unfold main, sources_after_run.
  destruct (get_url_list (FEED_FILE w) w) as [feeds w1] eqn:Hlist.
  assert (Hout1 : stdout w1 = stdout w).
  { unfold get_url_list in Hlist.
    destruct (files (log (OpenRead (FEED_FILE w)) w) (FEED_FILE w));
      injection Hlist as _ <-; reflexivity. }
  destruct (List.length feeds =? 0)%nat; simpl.
  - now rewrite app_nil_r.
  - destruct (get_feed_data (DATA_FILE w) DATE_FORMAT feeds w1)
      as [feed_data w2] eqn:Hdata.
    assert (Hout2 : stdout w2 = stdout w1).
    { unfold get_feed_data in Hdata.
      destruct (files (log (OpenRead (DATA_FILE w)) w1) (DATA_FILE w));
        injection Hdata as _ <-; reflexivity. }
    destruct (update_all (feedparser_parse w2) feed_data); simpl.
    + congruence.
    + rewrite app_nil_r. congruence.
Qed.

(** C10. In every run, each source that comes out of the update loop
    with [retrieval_failed] set has no title; hence [Feed.get_info]
    returns for each of them what it returns with the flag cleared, and
    everything [main] prints is what it would print with the flag
    cleared on every source: the suffix is never printed. *)
Theorem retrieval_failed_suffix_never_printed (w : World) :
  Forall failed_implies_untitled (sources_after_run w)
  /\ Forall (fun f => Feed_get_info f = Feed_get_info (set_retrieval_failed false f))
       (sources_after_run w)
  /\ stdout (snd (main w))
     = (stdout w
        ++ report (map (set_retrieval_failed false) (sources_after_run w)))%list.
Proof.
  assert (Hinv : Forall failed_implies_untitled (sources_after_run w)).
  { unfold sources_after_run.
    destruct (get_url_list (FEED_FILE w) w) as [feeds w1].
    destruct (List.length feeds =? 0)%nat; [constructor|].
    destruct (get_feed_data (DATA_FILE w) DATE_FORMAT feeds w1)
      as [feed_data w2] eqn:Hdata.
    destruct (update_all (feedparser_parse w2) feed_data) as [updated|] eqn:Hup;
      [|constructor].
    apply (update_all_failed_untitled (feedparser_parse w2) feed_data); [|exact Hup].
    change feed_data with (fst (feed_data, w2)). rewrite <- Hdata.
    apply get_feed_data_Forall.
    - apply untouched_new_Feed.
    - intros f v. apply untouched_set_newest. }
  split; [exact Hinv|]. split.
  - eapply Forall_impl; [|exact Hinv]. apply get_info_without_suffix.
  - rewrite main_stdout. f_equal. now apply report_without_suffix.
Qed.

(** ** Text *)

Lemma all_chars_app p a b :
  all_chars p (a ++ b) = all_chars p a && all_chars p b.
Proof.
  induction a as [|c a IH]; simpl; [reflexivity|].
  now rewrite IH, andb_assoc.
Qed.

Lemma all_chars_impl (p q : ascii -> bool) s :
  (forall c, p c = true -> q c = true) ->
  all_chars p s = true -> all_chars q s = true.
Proof.
  intros Hpq. induction s as [|c s IH]; simpl; [auto|].
  rewrite !andb_true_iff. intros [Hc Hs]. auto.
Qed.

Lemma lstrip_head s c r : lstrip s = String c r -> isspace c = false.
Proof.
  induction s as [|a s IH]; simpl; [discriminate|].
  destruct (isspace a) eqn:E; [exact IH|].
  intros H. injection H as <- _. exact E.
Qed.

Lemma lstrip_fixed c r : isspace c = false -> lstrip (String c r) = String c r.
Proof. intros H. simpl. now rewrite H. Qed.

Lemma lstrip_idem s : lstrip (lstrip s) = lstrip s.
Proof.
  destruct (lstrip s) as [|c r] eqn:E; [reflexivity|].
  apply lstrip_fixed. exact (lstrip_head s c r E).
Qed.

Lemma rstrip_idem s : rstrip (rstrip s) = rstrip s.
Proof.
  induction s as [|c s IH]; simpl; [reflexivity|].
  destruct (rstrip s) as [|a r] eqn:E.
  - destruct (isspace c) eqn:Ec; simpl; [reflexivity | now rewrite Ec].
  - simpl in *. now rewrite IH.
Qed.

Lemma lstrip_rstrip s : lstrip (rstrip s) = rstrip (lstrip s).
Proof.
  induction s as [|c s IH]; [reflexivity|].
  cbn [lstrip rstrip].
  destruct (isspace c) eqn:Ec.
  - rewrite <- IH. destruct (rstrip s) as [|a r]; [reflexivity|].
    cbn [lstrip]. now rewrite Ec.
  - cbn [rstrip]. rewrite Ec.
    destruct (rstrip s) as [|a r]; cbn [lstrip]; now rewrite Ec.
Qed.

Lemma strip_idem s : strip (strip s) = strip s.
Proof.
  unfold strip. now rewrite lstrip_rstrip, lstrip_idem, rstrip_idem.
Qed.

Lemma strip_fixed_lstrip u : strip u = u -> lstrip u = u.
Proof.
  unfold strip. intros H. rewrite <- H at 1.
  now rewrite lstrip_rstrip, lstrip_idem.
Qed.

Lemma strip_fixed_rstrip u : strip u = u -> rstrip u = u.
Proof.
  unfold strip. intros H. rewrite <- H at 1. now rewrite rstrip_idem.
Qed.

Lemma rstrip_app_space s : rstrip (s ++ " ") = rstrip s.
Proof.
  induction s as [|c s IH]; simpl; [reflexivity | now rewrite IH].
Qed.

Lemma strip_app_space u :
  strip u = u -> u <> "" -> strip (u ++ " ") = u.
Proof.
  intros Hfix Hne. unfold strip.
  pose proof (strip_fixed_lstrip u Hfix) as Hl.
  pose proof (strip_fixed_rstrip u Hfix) as Hr.
  destruct u as [|c r]; [congruence|].
  simpl append. rewrite (lstrip_fixed c (r ++ " ") (lstrip_head _ c r Hl)).
  change (String c (r ++ " ")) with (String c r ++ " ").
  now rewrite rstrip_app_space.
Qed.

Lemma rstrip_not_space s : all_chars not_space s = true -> rstrip s = s.
Proof.
  induction s as [|c s IH]; simpl; [reflexivity|].
  rewrite andb_true_iff. unfold not_space at 1. intros [Hc Hs].
  rewrite (IH Hs). apply negb_true_iff in Hc. rewrite Hc.
  destruct s; reflexivity.
Qed.

Lemma strip_not_space s : all_chars not_space s = true -> strip s = s.
Proof.
  intros H. unfold strip.
  destruct s as [|c r]; [reflexivity|].
  assert (Hc : isspace c = false).
  { simpl in H. apply andb_true_iff in H. destruct H as [H _].
    now apply negb_true_iff in H. }
  rewrite (lstrip_fixed c r Hc). now apply rstrip_not_space.
Qed.

(** *** The separator *)


Lemma find_split_no_first_char (a : ascii) sep' s :
  all_chars (fun c => negb (Ascii.eqb a c)) s = true ->
  find_split (String a sep') s = None.
Proof.
  induction s as [|c s IH]; simpl; [reflexivity|].
  rewrite andb_true_iff. intros [Hc Hs]. apply negb_true_iff in Hc.
  rewrite Hc. now rewrite (IH Hs).
Qed.

(** No occurrence of the separator starts in a text that does not
    contain it and runs into the separator written after it. *)
Lemma no_straddling_match x r :
  strip_prefix "last updated" x = None ->
  strip_prefix "last updated" (x ++ " last updated" ++ r) = None.
Proof.
  intros H.
  repeat (destruct x as [|? x];
          [reflexivity
          | cbn [strip_prefix append] in H |- *;
            match goal with
            | |- context [Ascii.eqb ?a ?b] =>
                destruct (Ascii.eqb a b); [|reflexivity]
            end]).
  discriminate H.
Qed.

Lemma find_split_separator v r :
  contains "last updated" v = false ->
  find_split "last updated" (v ++ " last updated" ++ r) = Some (v ++ " ", r).
Proof.
  induction v as [|c v IH]; intros Hv.
  - reflexivity.
  - cbn [contains] in Hv.
    destruct (strip_prefix "last updated" (String c v)) eqn:E; [discriminate|].
    pose proof (no_straddling_match (String c v) r E) as Hn.
    change (String c v ++ " last updated" ++ r)
      with (String c (v ++ " last updated" ++ r)) in Hn |- *.
    cbn [find_split]. rewrite Hn, (IH Hv). reflexivity.
Qed.

(** *** Lines *)

Lemma universal_newlines_id s :
  all_chars not_newline s = true -> universal_newlines s = s.
Proof.
  induction s as [|c s IH]; [reflexivity|].
  cbn [all_chars]. rewrite andb_true_iff. intros [Hc Hs].
  cbn [universal_newlines].
  unfold not_newline, is_newline in Hc.
  apply negb_true_iff, orb_false_iff in Hc. destruct Hc as [_ Hcr].
  rewrite Hcr. now rewrite (IH Hs).
Qed.

Lemma split_char_line c line rest :
  all_chars (fun a => negb (Ascii.eqb a c)) line = true ->
  split_char c (line ++ String c rest) = line :: split_char c rest.
Proof.
  induction line as [|a line IH]; simpl.
  - now rewrite Ascii.eqb_refl.
  - rewrite andb_true_iff. intros [Ha Hl]. apply negb_true_iff in Ha.
    rewrite Ha, (IH Hl). reflexivity.
Qed.

Lemma split_char_write_lines lines :
  Forall (fun line => all_chars not_newline line = true) lines ->
  split_char LF (write_lines lines) = (lines ++ [""])%list.
Proof.
  induction 1 as [|line lines Hline _ IH]; [reflexivity|].
  simpl. unfold newline. cbn [append].
  rewrite split_char_line, IH; [reflexivity|].
  eapply all_chars_impl; [|exact Hline].
  intros c. unfold not_newline, is_newline.
  destruct (Ascii.eqb c LF); [discriminate | reflexivity].
Qed.

Lemma universal_newlines_write_lines lines :
  Forall (fun line => all_chars not_newline line = true) lines ->
  universal_newlines (write_lines lines) = write_lines lines.
Proof.
  (* a line feed written after each line is left as it is *)
  induction 1 as [|line lines Hline _ IH]; [reflexivity|].
  simpl. unfold newline. cbn [append].
  revert Hline. induction line as [|c line IHl]; intros Hline.
  - cbn. now rewrite IH.
  - cbn [all_chars] in Hline. apply andb_true_iff in Hline.
    destruct Hline as [Hc Hl].
    cbn [append universal_newlines].
    unfold not_newline, is_newline in Hc.
    apply negb_true_iff, orb_false_iff in Hc. destruct Hc as [_ Hcr].
    rewrite Hcr. now rewrite (IHl Hl).
Qed.

(** ** The date format *)

Lemma digit_cases (P : Z -> Prop) :
  P 0 -> P 1 -> P 2 -> P 3 -> P 4 -> P 5 -> P 6 -> P 7 -> P 8 -> P 9 ->
  forall k, 0 <= k <= 9 -> P k.
Proof.
  intros H0 H1 H2 H3 H4 H5 H6 H7 H8 H9 k Hk.
  assert (E : k = 0 \/ k = 1 \/ k = 2 \/ k = 3 \/ k = 4 \/ k = 5
              \/ k = 6 \/ k = 7 \/ k = 8 \/ k = 9) by lia.
  repeat (destruct E as [-> | E]; [assumption|]). now subst.
Qed.

Lemma digit_val_digit_char k : 0 <= k <= 9 -> digit_val (digit_char k) = Some k.
Proof. revert k. apply digit_cases; reflexivity. Qed.

Lemma digit_char_timestamp k : 0 <= k <= 9 -> timestamp_char (digit_char k) = true.
Proof. revert k. apply digit_cases; reflexivity. Qed.

Lemma digit_char_not_colon k r :
  0 <= k <= 9 -> opt_lit ":" (String (digit_char k) r) = (false, String (digit_char k) r).
Proof. revert k. apply digit_cases; reflexivity. Qed.

Lemma digit_char_not_Z k : 0 <= k <= 9 -> Ascii.eqb (digit_char k) "Z" = false.
Proof. revert k. apply digit_cases; reflexivity. Qed.

Lemma digit_in_digit_char lo hi k r :
  0 <= k <= 9 -> lo <= k <= hi ->
  digit_in lo hi (String (digit_char k) r) = Some (k, r).
Proof.
  intros Hk Hr. unfold digit_in. rewrite (digit_val_digit_char k Hk).
  destruct (Z.leb_spec lo k); [|lia].
  destruct (Z.leb_spec k hi); [reflexivity | lia].
Qed.

Lemma digit_in_outside lo hi k r :
  0 <= k <= 9 -> k < lo \/ hi < k ->
  digit_in lo hi (String (digit_char k) r) = None.
Proof.
  intros Hk Hr. unfold digit_in. rewrite (digit_val_digit_char k Hk).
  destruct (Z.leb_spec lo k); [|reflexivity].
  destruct (Z.leb_spec k hi); [lia | reflexivity].
Qed.

Lemma zfill_2 n r :
  zfill 2 n ++ r
  = String (digit_char (n / 10 mod 10)) (String (digit_char (n mod 10)) r).
Proof. reflexivity. Qed.

(** Two digits written by [zfill] are read back by the classes they fit. *)
Lemma two_digits_zfill alo ahi blo bhi n r :
  0 <= n <= 99 -> alo <= n / 10 <= ahi -> blo <= n mod 10 <= bhi ->
  two_digits alo ahi blo bhi (zfill 2 n ++ r) = Some (n, r).
Proof.
  intros Hn Ha Hb. rewrite zfill_2. unfold two_digits.
  replace (n / 10 mod 10) with (n / 10) by div_lia.
  rewrite digit_in_digit_char by div_lia.
  rewrite digit_in_digit_char by div_lia.
  f_equal. f_equal. div_lia.
Qed.

(** They are refused by classes the first digit does not fit. *)
Lemma two_digits_zfill_refused alo ahi blo bhi n r :
  0 <= n <= 99 -> n / 10 < alo \/ ahi < n / 10 ->
  two_digits alo ahi blo bhi (zfill 2 n ++ r) = None.
Proof.
  intros Hn Ha. rewrite zfill_2. unfold two_digits.
  replace (n / 10 mod 10) with (n / 10) by div_lia.
  rewrite digit_in_outside by div_lia. reflexivity.
Qed.

Lemma re_m_zfill n r : 1 <= n <= 12 -> re_m (zfill 2 n ++ r) = Some (n, r).
Proof.
  intros Hn. unfold re_m, orelse.
  destruct (Z.le_gt_cases 10 n).
  - rewrite two_digits_zfill by div_lia. reflexivity.
  - rewrite two_digits_zfill_refused by div_lia.
    rewrite two_digits_zfill by div_lia. reflexivity.
Qed.

Lemma re_d_zfill n r : 1 <= n <= 31 -> re_d (zfill 2 n ++ r) = Some (n, r).
Proof.
  intros Hn. unfold re_d, orelse.
  destruct (Z.le_gt_cases 30 n).
  - rewrite two_digits_zfill by div_lia. reflexivity.
  - rewrite two_digits_zfill_refused by div_lia.
    destruct (Z.le_gt_cases 10 n).
    + rewrite two_digits_zfill by div_lia. reflexivity.
    + rewrite two_digits_zfill_refused by div_lia.
      rewrite two_digits_zfill by div_lia. reflexivity.
Qed.

Lemma re_H_zfill n r : 0 <= n <= 23 -> re_H (zfill 2 n ++ r) = Some (n, r).
Proof.
  intros Hn. unfold re_H, orelse.
  destruct (Z.le_gt_cases 20 n).
  - rewrite two_digits_zfill by div_lia. reflexivity.
  - rewrite two_digits_zfill_refused by div_lia.
    rewrite two_digits_zfill by div_lia. reflexivity.
Qed.

Lemma re_M_zfill n r : 0 <= n <= 59 -> re_M (zfill 2 n ++ r) = Some (n, r).
Proof.
  intros Hn. unfold re_M, orelse.
  rewrite two_digits_zfill by div_lia. reflexivity.
Qed.

Lemma re_S_zfill n r : 0 <= n <= 59 -> re_S (zfill 2 n ++ r) = Some (n, r).
Proof.
  intros Hn. unfold re_S, orelse.
  rewrite two_digits_zfill_refused by div_lia.
  rewrite two_digits_zfill by div_lia. reflexivity.
Qed.

Lemma re_Y_zfill n r : 0 <= n <= 9999 -> re_Y (zfill 4 n ++ r) = Some (n, r).
Proof.
  intros Hn.
  change (zfill 4 n ++ r)
    with (String (digit_char (n / 10 / 10 / 10 mod 10))
            (String (digit_char (n / 10 / 10 mod 10))
               (String (digit_char (n / 10 mod 10))
                  (String (digit_char (n mod 10)) r)))).
  unfold re_Y, two_digits.
  repeat rewrite digit_in_digit_char by div_lia.
  f_equal. f_equal. div_lia.
Qed.

(** A year of four digits is written as [zfill] writes it. *)
Lemma decimal_four_digits n : 1000 <= n <= 9999 -> decimal n = zfill 4 n.
Proof.
  intros Hn. unfold decimal.
  destruct (Z.to_nat n) as [|[|[|k]]] eqn:E; try lia.
  cbn [decimal_onto].
  destruct (Z.ltb_spec n 10); [lia|].
  destruct (Z.ltb_spec (n / 10) 10); [div_lia|].
  destruct (Z.ltb_spec (n / 10 / 10) 10); [div_lia|].
  destruct (Z.ltb_spec (n / 10 / 10 / 10) 10); [|div_lia].
  reflexivity.
Qed.

(** An earlier year is written with fewer digits, and [%Y], which
    wants four, refuses it. *)
Lemma re_Y_decimal_short n r :
  1 <= n < 1000 -> re_Y (decimal n ++ "-" ++ r) = None.
Proof.
  intros Hn. unfold decimal.
  destruct (Z.to_nat n) as [|k] eqn:E; [lia|].
  cbn [decimal_onto].
  destruct (Z.ltb_spec n 10) as [H1|H1].
  - cbn [append]. unfold re_Y, two_digits.
    rewrite digit_in_digit_char by div_lia. reflexivity.
  - destruct k as [|k]; [lia|]. cbn [decimal_onto].
    destruct (Z.ltb_spec (n / 10) 10) as [H2|H2].
    + cbn [append]. unfold re_Y, two_digits.
      repeat rewrite digit_in_digit_char by div_lia. reflexivity.
    + destruct k as [|k]; [lia|]. cbn [decimal_onto].
      destruct (Z.ltb_spec (n / 10 / 10) 10) as [H3|H3]; [|div_lia].
      cbn [append]. unfold re_Y, two_digits.
      repeat rewrite digit_in_digit_char by div_lia. reflexivity.
Qed.

Lemma re_fraction_zfill n :
  0 <= n <= 999999 -> re_fraction ("." ++ zfill 6 n) = Some (n, "").
Proof.
  intros Hn.
  change ("." ++ zfill 6 n)
    with (String "." (String (digit_char (n / 10 / 10 / 10 / 10 / 10 mod 10))
            (String (digit_char (n / 10 / 10 / 10 / 10 mod 10))
               (String (digit_char (n / 10 / 10 / 10 mod 10))
                  (String (digit_char (n / 10 / 10 mod 10))
                     (String (digit_char (n / 10 mod 10))
                        (String (digit_char (n mod 10)) ""))))))).
  unfold re_fraction.
  change (lit "." (String "." ?r)) with (Some r).
  cbn [take_digits].
  repeat rewrite digit_val_digit_char by div_lia.
  cbn [take_digits].
  unfold fraction_value. cbn [fold_left List.length].
  f_equal. f_equal.
  change (10 ^ (6 - Z.of_nat 6)) with 1.
  div_lia.
Qed.

Lemma opt_lit_zfill_2 n r :
  opt_lit ":" (zfill 2 n ++ r) = (false, zfill 2 n ++ r).
Proof.
  rewrite zfill_2. apply digit_char_not_colon. div_lia.
Qed.

(** The offset written by [%z] is read back as it was. *)
Lemma re_z_format_utcoffset off :
  timezone_ok off = true -> re_z (format_utcoffset off) = Some (off, "").
Proof.
  unfold timezone_ok. rewrite andb_true_iff, !Z.ltb_lt. intros [Hlo Hhi].
  unfold format_utcoffset.
  set (a := Z.abs off). set (us := a mod 1000000). set (s := a / 1000000).
  assert (Ha : 0 <= a < 86400000000) by (subst a; lia).
  assert (Hs : 0 <= s < 86400) by (subst s; div_lia).
  assert (Hus : 0 <= us <= 999999) by (subst us; div_lia).
  assert (Hoff : a = s * 1000000 + us) by (subst s us; div_lia).
  set (tail := if negb (us =? 0) then zfill 2 (s mod 60) ++ "." ++ zfill 6 us
               else if negb (s mod 60 =? 0) then zfill 2 (s mod 60) else "").
  assert (Hbody : forall sign,
            match two_digits 0 9 0 9 (zfill 2 (s / 3600) ++ zfill 2 (s / 60 mod 60) ++ tail) with
            | None => None
            | Some (hh, r1) =>
                let (colon1, r2) := opt_lit ":" r1 in
                match two_digits 0 5 0 9 r2 with
                | None => None
                | Some (mm, r3) =>
                    let (colon2, r4) := opt_lit ":" r3 in
                    match two_digits 0 5 0 9 r4 with
                    | None => Some (sign * ((hh * 3600 + mm * 60) * 1000000), r3)
                    | Some (ss, r5) =>
                        let (u, r6) :=
                          match re_fraction r5 with
                          | Some (u, r') => (u, r')
                          | None => (0, r5)
                          end in
                        if Bool.eqb colon1 colon2
                        then Some (sign * ((hh * 3600 + mm * 60 + ss) * 1000000 + u), r6)
                        else None
                    end
                end
            end = Some (sign * a, "")).
  { intros sign.
    rewrite two_digits_zfill by div_lia.
    rewrite opt_lit_zfill_2.
    rewrite two_digits_zfill by div_lia.
    subst tail.
    destruct (Z.eqb_spec us 0) as [Hz|Hnz]; cbn [negb].
    - destruct (Z.eqb_spec (s mod 60) 0) as [Hsz|Hsnz]; cbn [negb].
      + cbn. f_equal. f_equal. f_equal. div_lia.
      + change (zfill 2 (s mod 60)) with (zfill 2 (s mod 60) ++ "").
        rewrite opt_lit_zfill_2.
        rewrite two_digits_zfill by div_lia.
        cbn. f_equal. f_equal. f_equal. div_lia.
    - rewrite opt_lit_zfill_2.
      rewrite two_digits_zfill by div_lia.
      rewrite re_fraction_zfill by exact Hus.
      cbn. f_equal. f_equal. f_equal. div_lia. }
  destruct (Z.ltb_spec off 0) as [Hneg|Hpos].
  - change ("-" ++ ?x) with (String "-" x). cbn [re_z].
    change (Ascii.eqb "-" "Z") with false.
    change (Ascii.eqb "-" "+") with false.
    change (Ascii.eqb "-" "-") with true.
    cbn [orb]. rewrite (Hbody (-1)). f_equal. f_equal. subst a. lia.
  - change ("+" ++ ?x) with (String "+" x). cbn [re_z].
    change (Ascii.eqb "+" "Z") with false.
    change (Ascii.eqb "+" "+") with true.
    change (Ascii.eqb "+" "-") with false.
    cbn [orb]. rewrite (Hbody 1). f_equal. f_equal. subst a. lia.
Qed.

Lemma datetime_new_valid t :
  datetime_valid t = true ->
  datetime_new (year t) (month t) (day t) (hour t) (minute t) (second t)
    (utcoffset t) = Some t.
Proof.
  unfold datetime_valid, datetime_new. intros ->. now destruct t.
Qed.

(** Parsing a formatted datetime gives the datetime back, when its
    year has four digits. *)
Lemma strptime_strftime_iso t :
  datetime_valid t = true -> 1000 <= year t ->
  strptime_iso (strftime_iso t) = Some t.
Proof.
  intros Hvalid Hyear. pose proof Hvalid as Hv.
  unfold datetime_valid in Hv. apply andb_true_iff in Hv.
  destruct Hv as [Hf Htz].
  apply fields_ok_bounds in Hf.
  destruct Hf as (Hy & Hm & Hd & Hh & Hmi & Hs).
  unfold strptime_iso, strftime_iso.
  rewrite decimal_four_digits by lia.
  rewrite re_Y_zfill by lia.
  change (lit "-" ("-" ++ ?r)) with (Some r). cbv iota beta.
  rewrite re_m_zfill by lia.
  change (lit "-" ("-" ++ ?r)) with (Some r). cbv iota beta.
  rewrite re_d_zfill by lia.
  change (lit_T ("T" ++ ?r)) with (Some r). cbv iota beta.
  rewrite re_H_zfill by lia.
  change (lit ":" (":" ++ ?r)) with (Some r). cbv iota beta.
  rewrite re_M_zfill by lia.
  change (lit ":" (":" ++ ?r)) with (Some r). cbv iota beta.
  rewrite re_S_zfill by lia.
  rewrite re_z_format_utcoffset by exact Htz.
  now apply datetime_new_valid.
Qed.

(** A formatted datetime of an earlier year is not read back. *)
Lemma strptime_strftime_short_year t :
  datetime_valid t = true -> year t < 1000 ->
  strptime_iso (strftime_iso t) = None.
Proof.
  intros Hvalid Hyear.
  unfold datetime_valid in Hvalid. apply andb_true_iff in Hvalid.
  destruct Hvalid as [Hf _]. apply fields_ok_bounds in Hf.
  unfold strptime_iso, strftime_iso.
  rewrite re_Y_decimal_short by lia. reflexivity.
Qed.

(** *** The characters of a formatted datetime *)

Lemma all_chars_zfill_onto p width :
  (forall k, 0 <= k <= 9 -> p (digit_char k) = true) ->
  forall n acc,
    all_chars p acc = true -> all_chars p (zfill_onto width n acc) = true.
Proof.
  intros Hp. induction width as [|width IH]; intros n acc Hacc; [exact Hacc|].
  cbn [zfill_onto]. apply IH. cbn [all_chars].
  rewrite Hacc, Hp by div_lia. reflexivity.
Qed.

Lemma all_chars_zfill width n : all_chars timestamp_char (zfill width n) = true.
Proof.
  apply all_chars_zfill_onto; [apply digit_char_timestamp | reflexivity].
Qed.

Lemma format_utcoffset_chars off :
  all_chars timestamp_char (format_utcoffset off) = true.
Proof.
  unfold format_utcoffset.
  repeat rewrite all_chars_app. rewrite !all_chars_zfill.
  destruct (off <? 0);
    destruct (negb (Z.abs off mod 1000000 =? 0));
    try destruct (negb (Z.abs off / 1000000 mod 60 =? 0));
    repeat rewrite all_chars_app; rewrite ?all_chars_zfill; reflexivity.
Qed.

Lemma all_chars_decimal_onto p fuel :
  (forall k, 0 <= k <= 9 -> p (digit_char k) = true) ->
  forall n acc,
    all_chars p acc = true -> all_chars p (decimal_onto fuel n acc) = true.
Proof.
  intros Hp. induction fuel as [|fuel IH]; intros n acc Hacc; [exact Hacc|].
  cbn [decimal_onto].
  assert (Hnext : all_chars p (String (digit_char (n mod 10)) acc) = true).
  { cbn [all_chars]. rewrite Hacc, Hp by div_lia. reflexivity. }
  destruct (n <? 10); [exact Hnext | now apply IH].
Qed.

Lemma all_chars_decimal n : all_chars timestamp_char (decimal n) = true.
Proof.
  apply all_chars_decimal_onto; [apply digit_char_timestamp | reflexivity].
Qed.

Lemma strftime_iso_chars t : all_chars timestamp_char (strftime_iso t) = true.
Proof.
  unfold strftime_iso. repeat rewrite all_chars_app.
  rewrite all_chars_decimal, !all_chars_zfill, format_utcoffset_chars.
  reflexivity.
Qed.

Lemma timestamp_char_not_space c : timestamp_char c = true -> not_space c = true.
Proof. destruct c as [[] [] [] [] [] [] [] []]; intros H; try reflexivity; discriminate H. Qed.


Lemma timestamp_char_not_l c :
  timestamp_char c = true -> negb (Ascii.eqb "l" c) = true.
Proof. destruct c as [[] [] [] [] [] [] [] []]; intros H; try reflexivity; discriminate H. Qed.

(** *** Lines written by [save_feed_data] *)

Lemma url_ok_facts u :
  url_ok u = true ->
  u <> "" /\ (String.length u =? 0)%nat = false /\ strip u = u
  /\ all_chars not_newline u = true /\ contains "last updated" u = false.
Proof.
  unfold url_ok, url_read. rewrite !andb_true_iff, !negb_true_iff, String.eqb_eq.
  intros (((Hlen & Hstrip) & Hnl) & Hsep). repeat split; auto.
  intros ->. discriminate Hlen.
Qed.


(** A line written with a watermark is read as the URL and whatever
    [strptime] makes of the formatted watermark. *)
Lemma parse_line_written u t :
  url_ok u = true ->
  parse_line DATE_FORMAT (u ++ " last updated " ++ strftime DATE_FORMAT t)
  = Some (u, strptime_iso (strftime_iso t)).
Proof.
  intros Hu. apply url_ok_facts in Hu.
  destruct Hu as (Hne & Hlen & Hstrip & _ & Hsep).
  pose proof (strftime_iso_chars t) as Hchars.
  unfold parse_line. cbn [strftime DATE_FORMAT].
  change (u ++ " last updated " ++ strftime_iso t)
    with (u ++ " last updated" ++ (" " ++ strftime_iso t)).
  cbn [split_max].
  rewrite (find_split_separator u _ Hsep).
  rewrite find_split_no_first_char
    by (cbn [append all_chars]; apply andb_true_iff; split; [reflexivity|];
        eapply all_chars_impl; [apply timestamp_char_not_l | exact Hchars]).
  cbv iota beta. rewrite (strip_app_space u Hstrip Hne), Hlen.
  change (strip (" " ++ strftime_iso t)) with (strip (strftime_iso t)).
  rewrite strip_not_space
    by (eapply all_chars_impl; [apply timestamp_char_not_space | exact Hchars]).
  reflexivity.
Qed.








Lemma save_feed_data_file path fmt d w :
  files (save_feed_data path fmt d w) path = Some (saved_text fmt d).
Proof.
  unfold save_feed_data, write_file. cbn [files]. now rewrite String.eqb_refl.
Qed.






(** ** One failed fetch in a run *)

Lemma dict_set_Forall {V} (P : string * V -> Prop) (d : dict V) k v :
  Forall P d -> P (k, v) -> Forall P (dict_set d k v).
Proof.
  intros Hd Hv. induction d as [|[k0 v0] d IH]; simpl.
  - constructor; [exact Hv | constructor].
  - inversion Hd; subst.
    destruct (String.eqb_spec k0 k) as [->|]; constructor; auto.
Qed.

Lemma dict_alter_Forall {V} (P : string * V -> Prop) (f : V -> V) (d : dict V) k :
  Forall P d -> (forall k' v, P (k', v) -> P (k', f v)) ->
  Forall P (dict_alter f d k).
Proof.
  intros Hd Hf. induction d as [|[k0 v0] d IH]; simpl; [constructor|].
  inversion Hd; subst.
  destruct (String.eqb k0 k); constructor; auto.
Qed.

(** Every source built by [get_feed_data] is stored under its own URL. *)
Lemma get_feed_data_keys data_file fmt urls w :
  Forall (fun kv => url (snd kv) = fst kv)
    (fst (get_feed_data data_file fmt urls w)).
Proof.
  rewrite get_feed_data_lines.
  generalize (data_lines data_file (log (OpenRead data_file) w)). intros lines.
  set (P := fun kv : string * Feed => url (snd kv) = fst kv).
  assert (Hc : Forall P (configured urls)).
  { unfold configured.
    assert (H : forall d, Forall P d ->
              Forall P (fold_left (fun d u => dict_set d u (new_Feed u true)) urls d)).
    { induction urls as [|u urls IH]; intros d Hd; simpl; [exact Hd|].
      apply IH. now apply dict_set_Forall. }
    apply H. constructor. }
  revert Hc. generalize (configured urls).
  induction lines as [|line lines IH]; intros d Hd; simpl; [exact Hd|].
  apply IH. rewrite load_line_record.
  destruct (parse_line fmt line) as [[u v]|]; [|exact Hd].
  unfold store_record. cbn [fst snd].
  apply dict_alter_Forall; [|auto].
  destruct (dict_contains d u); cbn [negb]; [exact Hd|].
  now apply dict_set_Forall.
Qed.



(** The update loop treats each source on its own. *)
Lemma update_all_lookup parse d :
  forall d',
    update_all parse d = Returns d' ->
    dict_keys d' = dict_keys d
    /\ forall k,
         dict_get d' k
         = match dict_get d k with
           | Some f =>
               if is_enabled f then returned (update_feed parse f) else Some f
           | None => None
           end.
Proof.
  induction d as [|[k0 f0] d IH]; intros d' Hup; simpl in Hup.
  - injection Hup as <-. split; reflexivity.
  - destruct (is_enabled f0) eqn:Hen.
    + destruct (update_feed parse f0) as [f'|] eqn:Ef; [|discriminate].
      destruct (update_all parse d) as [rest'|]; [|discriminate].
      injection Hup as <-. destruct (IH rest' eq_refl) as [Hkeys Hget].
      split; [simpl; now rewrite Hkeys|].
      intros k. simpl.
      destruct (String.eqb k0 k); [now rewrite Hen, Ef | apply Hget].
    + destruct (update_all parse d) as [rest'|]; [|discriminate].
      injection Hup as <-. destruct (IH rest' eq_refl) as [Hkeys Hget].
      split; [simpl; now rewrite Hkeys|].
      intros k. simpl. destruct (String.eqb k0 k); [now rewrite Hen | apply Hget].
Qed.


Lemma get_url_list_frame path w :
  FEED_FILE w <> path ->
  files (snd (get_url_list (FEED_FILE w) w)) path = files w path
  /\ feedparser_parse (snd (get_url_list (FEED_FILE w) w)) = feedparser_parse w.
Proof.
  intros Hne. unfold get_url_list. cbn [log files].
  destruct (files w (FEED_FILE w)); [split; reflexivity|].
  unfold write_file. cbn [snd files log feedparser_parse].
  destruct (String.eqb_spec path (FEED_FILE w)); [congruence | auto].
Qed.

Lemma get_feed_data_frame data_file fmt urls w :
  snd (get_feed_data data_file fmt urls w) = log (OpenRead data_file) w.
Proof.
  unfold get_feed_data. cbn [log files].
  destruct (files w data_file); reflexivity.
Qed.

Lemma data_lines_files path w w' :
  files w' path = files w path -> data_lines path w' = data_lines path w.
Proof. unfold data_lines. now intros ->. Qed.





(** ** The source sets of the program

    Whatever the files and the network, the working set of a run holds
    sources in the order that [sources_ok] asks for, but for the
    separator: each under its own URL, a URL that is not empty, stripped
    and on one line, with a watermark that is a datetime, and no URL
    twice. *)

Lemma all_chars_lstrip p s : all_chars p s = true -> all_chars p (lstrip s) = true.
Proof.
  induction s as [|c s IH]; cbn [lstrip all_chars]; [auto|].
  rewrite andb_true_iff. intros [Hc Hs].
  destruct (isspace c); [auto|]. cbn [all_chars]. now rewrite Hc, Hs.
Qed.

Lemma all_chars_rstrip p s : all_chars p s = true -> all_chars p (rstrip s) = true.
Proof.
  induction s as [|c s IH]; cbn [rstrip all_chars]; [auto|].
  rewrite andb_true_iff. intros [Hc Hs]. specialize (IH Hs).
  destruct (rstrip s) as [|a r].
  - destruct (isspace c); cbn [all_chars]; [reflexivity | now rewrite Hc].
  - cbn [all_chars] in *. now rewrite Hc, IH.
Qed.

Lemma all_chars_strip p s : all_chars p s = true -> all_chars p (strip s) = true.
Proof. intros H. unfold strip. now apply all_chars_rstrip, all_chars_lstrip. Qed.

Lemma universal_newlines_cons c s :
  universal_newlines (String c s)
  = if Ascii.eqb c CR then
      match s with
      | String c' s'' =>
          if Ascii.eqb c' LF then String LF (universal_newlines s'')
          else String LF (universal_newlines s)
      | EmptyString => String LF EmptyString
      end
    else String c (universal_newlines s).
Proof. destruct s; reflexivity. Qed.

Lemma universal_newlines_no_CR s :
  all_chars not_CR (universal_newlines s) = true.
Proof.
  assert (H : all_chars not_CR (universal_newlines s) = true
              /\ forall c, all_chars not_CR (universal_newlines (String c s)) = true).
  { induction s as [|a s [IH1 IH2]].
    - split; [reflexivity|]. intros c. rewrite universal_newlines_cons.
      destruct (Ascii.eqb c CR) eqn:E; [reflexivity|].
      cbn [all_chars universal_newlines]. unfold not_CR. now rewrite E.
    - split; [apply IH2|]. intros c.
      rewrite (universal_newlines_cons c (String a s)).
      destruct (Ascii.eqb c CR) eqn:E.
      + destruct (Ascii.eqb a LF); cbn [all_chars].
        * now rewrite IH1.
        * now rewrite IH2.
      + cbn [all_chars]. unfold not_CR at 1. rewrite E. now rewrite IH2. }
  apply H.
Qed.

Lemma split_char_pieces s :
  all_chars not_CR s = true ->
  Forall (fun line => all_chars not_newline line = true) (split_char LF s).
Proof.
  induction s as [|a s IH]; cbn [split_char all_chars].
  - intros _. repeat constructor.
  - rewrite andb_true_iff. intros [Ha Hs]. specialize (IH Hs).
    destruct (Ascii.eqb a LF) eqn:E; [constructor; [reflexivity | exact IH]|].
    assert (Hnl : not_newline a = true).
    { unfold not_newline, is_newline. rewrite E. exact Ha. }
    destruct (split_char LF s) as [|h t].
    + constructor; [|constructor]. cbn [all_chars]. now rewrite Hnl.
    + inversion IH; subst. constructor; [|assumption].
      cbn [all_chars]. rewrite Hnl. assumption.
Qed.

Lemma find_split_before_chars p sep s :
  forall a b,
    find_split sep s = Some (a, b) ->
    all_chars p s = true -> all_chars p a = true.
Proof.
  induction s as [|c s IH]; intros a b; cbn [find_split].
  - destruct (strip_prefix sep ""); [|discriminate].
    intros H _. now injection H as <- _.
  - destruct (strip_prefix sep (String c s)).
    + intros H _. now injection H as <- _.
    + destruct (find_split sep s) as [[a' b']|]; [|discriminate].
      intros H. injection H as <- _. cbn [all_chars].
      rewrite !andb_true_iff. intros [Hc Hs]. split; [exact Hc|].
      exact (IH a' b' eq_refl Hs).
Qed.

Lemma split_max_first_chars p sep s n :
  all_chars p s = true ->
  match split_max sep s n with
  | part0 :: _ => all_chars p part0 = true
  | [] => True
  end.
Proof.
  intros Hs. destruct n as [|n]; cbn [split_max]; [exact Hs|].
  destruct (find_split sep s) as [[a b]|] eqn:E; [|exact Hs].
  exact (find_split_before_chars p sep s a b E Hs).
Qed.

Lemma parse_line_url_read fmt line u wm :
  all_chars not_newline line = true ->
  parse_line fmt line = Some (u, wm) -> url_read u = true.
Proof.
  intros Hline. unfold parse_line.
  pose proof (split_max_first_chars not_newline "last updated" line 2 Hline) as H0.
  destruct (split_max "last updated" line 2) as [|part0 rest]; [discriminate|].
  cbv zeta. destruct (String.length (strip part0) =? 0)%nat eqn:E; [discriminate|].
  intros H. injection H as <- _. unfold url_read.
  now rewrite E, strip_idem, String.eqb_refl, all_chars_strip.
Qed.

Lemma datetime_new_valid_result y m d hh mm ss off t :
  datetime_new y m d hh mm ss off = Some t -> datetime_valid t = true.
Proof.
  unfold datetime_new.
  destruct (fields_ok y m d hh mm ss && timezone_ok off) eqn:E; [|discriminate].
  intros H. injection H as <-. exact E.
Qed.

Lemma strptime_iso_valid text t :
  strptime_iso text = Some t -> datetime_valid t = true.
Proof.
  unfold strptime_iso.
  repeat match goal with
         | |- match ?x with _ => _ end = Some _ -> _ =>
             destruct x; try discriminate
         end.
  apply datetime_new_valid_result.
Qed.

Lemma parse_line_watermark_valid line u wm :
  parse_line DATE_FORMAT line = Some (u, wm) -> watermark_valid wm = true.
Proof.
  unfold parse_line.
  destruct (split_max "last updated" line 2) as [|part0 rest]; [discriminate|].
  cbv zeta. destruct (String.length (strip part0) =? 0)%nat; [discriminate|].
  intros H. injection H as _ <-.
  destruct rest as [|part1 rest]; [reflexivity|].
  cbn [strptime DATE_FORMAT].
  destruct (strptime_iso (strip part1)) as [t|] eqn:E; [|reflexivity].
  exact (strptime_iso_valid _ _ E).
Qed.

Lemma url_lines_read raw :
  Forall (fun u => url_read u = true) (url_lines (universal_newlines raw)).
Proof.
  apply Forall_forall. intros u Hu. unfold url_lines in Hu.
  apply filter_In in Hu. destruct Hu as [Hin Hline].
  apply in_map_iff in Hin. destruct Hin as (piece & <- & Hpiece).
  pose proof (split_char_pieces _ (universal_newlines_no_CR raw)) as Hall.
  rewrite Forall_forall in Hall. specialize (Hall piece Hpiece).
  unfold url_read. rewrite strip_idem, String.eqb_refl, all_chars_strip by exact Hall.
  destruct (strip piece); [discriminate Hline | reflexivity].
Qed.

Lemma data_lines_not_newline data_file w :
  Forall (fun line => all_chars not_newline line = true) (data_lines data_file w).
Proof.
  unfold data_lines. destruct (files w data_file) as [raw|]; [|constructor].
  apply split_char_pieces, universal_newlines_no_CR.
Qed.

(** *** The invariant *)

Lemma source_read_new_Feed u b : url_read u = true -> source_read (u, new_Feed u b) = true.
Proof.
  intros H. unfold source_read. cbn. now rewrite String.eqb_refl, H.
Qed.

Lemma configured_in_order urls :
  Forall (fun u => url_read u = true) urls -> in_order (configured urls).
Proof.
  intros Hurls. unfold configured.
  assert (H : forall d, in_order d ->
            in_order (fold_left (fun d u => dict_set d u (new_Feed u true)) urls d)).
  { induction Hurls as [|u urls Hu _ IH]; intros d [Hd Hk]; [now split|].
    cbn [fold_left]. apply IH. split.
    - apply dict_set_Forall; [exact Hd | now apply source_read_new_Feed].
    - now apply unique_dict_set. }
  apply H. split; [constructor | reflexivity].
Qed.

Lemma load_line_in_order d line :
  all_chars not_newline line = true ->
  in_order d -> in_order (load_line DATE_FORMAT d line).
Proof.
  intros Hline [Hd Hk]. rewrite load_line_record.
  destruct (parse_line DATE_FORMAT line) as [[u wm]|] eqn:E; [|now split].
  pose proof (parse_line_url_read _ _ _ _ Hline E) as Hu.
  pose proof (parse_line_watermark_valid _ _ _ E) as Hw.
  unfold store_record. cbn [fst snd]. split.
  - apply dict_alter_Forall.
    + destruct (dict_contains d u); cbn [negb]; [exact Hd|].
      apply dict_set_Forall; [exact Hd | now apply source_read_new_Feed].
    + intros k f. unfold source_read. cbn [fst snd set_newest_retrieved_date
        url newest_retrieved_date].
      rewrite !andb_true_iff. intros [[H1 H2] _]. now rewrite Hw.
  - rewrite dict_keys_alter.
    destruct (dict_contains d u); cbn [negb]; [exact Hk | now apply unique_dict_set].
Qed.

Lemma get_feed_data_in_order data_file urls w :
  Forall (fun u => url_read u = true) urls ->
  in_order (fst (get_feed_data data_file DATE_FORMAT urls w)).
Proof.
  intros Hurls. rewrite get_feed_data_lines.
  pose proof (data_lines_not_newline data_file (log (OpenRead data_file) w)) as Hlines.
  pose proof (configured_in_order urls Hurls) as Hc.
  revert Hc. generalize (configured urls).
  induction Hlines as [|line lines Hline _ IH]; intros d Hd; [exact Hd|].
  cbn [fold_left]. apply IH. now apply load_line_in_order.
Qed.

Lemma update_loop_watermark_valid w items :
  forall acc newest acc' newest',
    update_loop w items acc newest = Returns (acc', newest') ->
    watermark_valid newest = true -> watermark_valid newest' = true.
Proof.
  induction items as [|item items IH]; intros acc newest acc' newest'; cbn [update_loop].
  - intros H. now injection H as _ <-.
  - destruct (published_parsed item) as [[tm|]|]; [|discriminate|apply IH].
    destruct (datetime_utc tm) as [t|] eqn:Et; [|discriminate].
    apply datetime_utc_returns in Et.
    destruct (is_after t w); [|apply IH].
    intros Hloop Hvalid. eapply IH; [exact Hloop|].
    destruct (is_after t newest); [|exact Hvalid].
    exact (datetime_new_valid_result _ _ _ _ _ _ _ _ Et).
Qed.

Lemma update_feed_source_read parse k f f' :
  source_read (k, f) = true ->
  update_feed parse f = Returns f' -> source_read (k, f') = true.
Proof.
  unfold source_read. cbn [fst snd]. rewrite !andb_true_iff.
  intros [[Hu Hk] Hw]. unfold update_feed.
  destruct (fetch_failed (parse (url f))).
  - intros H. injection H as <-. cbn. now rewrite Hu, Hk, Hw.
  - destruct (retitled_fields (parse (url f)) f) as (Eu & _ & Ew & _).
    destruct (update_loop _ _ _ _) as [[found newest]|] eqn:El; [|discriminate].
    intros H. injection H as <-. cbn. rewrite Eu, Hu, Hk.
    rewrite Ew in El.
    now rewrite (update_loop_watermark_valid _ _ _ _ _ _ El Hw).
Qed.

Lemma update_all_in_order parse d updated :
  in_order d -> update_all parse d = Returns updated -> in_order updated.
Proof.
  intros [Hd Hk] Hup. destruct (update_all_lookup _ _ _ Hup) as [Hkeys _].
  split; [|now rewrite Hkeys].
  clear Hk Hkeys. revert updated Hup.
  induction Hd as [|[k f] d Hf _ IH]; intros updated Hup; cbn [update_all] in Hup.
  - injection Hup as <-. constructor.
  - destruct (is_enabled f).
    + destruct (update_feed parse f) as [f'|] eqn:Ef; [|discriminate].
      destruct (update_all parse d) as [rest|]; [|discriminate].
      injection Hup as <-. constructor; [|now apply IH].
      exact (update_feed_source_read parse k f f' Hf Ef).
    + destruct (update_all parse d) as [rest|]; [|discriminate].
      injection Hup as <-. constructor; [exact Hf | now apply IH].
Qed.

Lemma get_url_list_read w :
  Forall (fun u => url_read u = true) (fst (get_url_list (FEED_FILE w) w)).
Proof.
  unfold get_url_list. cbn [log files].
  destruct (files w (FEED_FILE w)) as [raw|]; cbn [fst]; [|constructor].
  apply url_lines_read.
Qed.

(** The working set of every run is in order; it can be carried by the
    state file as soon as no URL contains the separator and the year of
    every watermark has four digits. *)
Lemma run_sources_in_order w updated :
  let feeds := fst (get_url_list (FEED_FILE w) w) in
  let w1 := snd (get_url_list (FEED_FILE w) w) in
  let feed_data := fst (get_feed_data (DATA_FILE w) DATE_FORMAT feeds w1) in
  update_all (feedparser_parse w) feed_data = Returns updated ->
  in_order updated
  /\ (forallb (fun k => negb (contains "last updated" k)) (dict_keys updated) = true ->
      forallb (fun f => four_digit_year (newest_retrieved_date f))
        (dict_values updated) = true ->
      sources_ok updated = true).
Proof.
  intros feeds w1 feed_data Hup.
  assert (Hord : in_order updated).
  { apply (update_all_in_order (feedparser_parse w) feed_data); [|exact Hup].
    apply get_feed_data_in_order, get_url_list_read. }
  split; [exact Hord|]. destruct Hord as [Hall Hk].
  intros Hsep Hyear. unfold sources_ok. rewrite Hk, andb_true_r.
  apply forallb_forall. intros [k f] Hin.
  rewrite Forall_forall in Hall. unfold source_ok. rewrite (Hall _ Hin).
  rewrite forallb_forall in Hsep, Hyear. cbn [andb fst snd].
  rewrite (Hsep k), (Hyear f); [reflexivity | |].
  - unfold dict_values. change f with (snd (k, f)). now apply in_map.
  - unfold dict_keys. change k with (fst (k, f)). now apply in_map.
Qed.

(** ** Watermarks across a run *)





(** ** The scenarios of the specification, evaluated *)

(** Scenario 1: no watermark, one item. *)
Example scenario_1 :
  update_feed (feed_of_items [item_at 2024 1 1]) (source_with None)
  = Returns (mk_Feed example_url None [post_at 2024 1 1] false
               (Some (utc_midnight 2024 1 1)) true).
Proof. reflexivity. Qed.

(** Scenario 2: an item published at the watermark is not new. *)
Example scenario_2 :
  update_feed (feed_of_items [item_at 2024 1 1])
    (source_with (Some (utc_midnight 2024 1 1)))
  = Returns (source_with (Some (utc_midnight 2024 1 1))).
Proof. reflexivity. Qed.

(** Scenario 3: two items come out newest first. *)
Example scenario_3 :
  update_feed (feed_of_items [item_at 2024 2 1; item_at 2024 3 1]) (source_with None)
  = Returns (mk_Feed example_url None [post_at 2024 3 1; post_at 2024 2 1] false
               (Some (utc_midnight 2024 3 1)) true).
Proof. reflexivity. Qed.

(** Datetimes are compared as instants: a watermark of 05:30 at +05:30
    is midnight UTC, and an item of midnight UTC is not later. *)
Example watermark_with_offset :
  update_feed (feed_of_items [item_at 2024 1 1])
    (source_with (Some (mk_datetime 2024 1 1 5 30 0 19800000000)))
  = Returns (source_with (Some (mk_datetime 2024 1 1 5 30 0 19800000000))).
Proof. reflexivity. Qed.

(** An item whose [published_parsed] is no calendar time makes
    [datetime] raise, and the update with it: [ValueError] for a
    30 February, [OverflowError] for a year beyond the integers of C. *)
Example invalid_struct_time_raises :
  update_feed (feed_of_items [item_at 2024 2 30]) (source_with None)
  = Raises ValueError
  /\ update_feed (feed_of_items [item_at 4294967296 1 1]) (source_with None)
     = Raises OverflowError.
Proof. split; reflexivity. Qed.

(** A datetime of the year 999 is written with three digits, in the
    state file and in the report, and is not read back. *)
Example year_999_is_written_short :
  strftime_iso (utc_midnight 999 1 1) = "999-01-01T00:00:00+0000"
  /\ strptime_iso (strftime_iso (utc_midnight 999 1 1)) = None
  /\ strptime_iso "0999-01-01T00:00:00+0000" = Some (utc_midnight 999 1 1)
  /\ strftime_long (utc_midnight 999 1 1) = "01 January 999 at 00:00:00".
Proof. repeat split; reflexivity. Qed.

(** Scenario 4: the run of [mixed_world], in which the first source
    fails and the second answers. *)
Example scenario_4 :
  let (outcome, w) := main mixed_world in
  outcome = Returned
  /\ option_map retrieval_failed (dict_get (run_updated mixed_world) example_url)
     = Some true
  /\ files w (DATA_FILE w)
     = Some ("https://example.com/feed last updated 2024-03-01T12:30:45+0530"
             ++ newline
             ++ "https://example.com/other last updated 2024-03-01T00:00:00+0000"
             ++ newline)
  /\ In "Feed: https://example.com/feed" (stdout w).
Proof. vm_compute. repeat split. auto 10. Qed.

(** Scenario 5: a malformed watermark loads as none. *)
Example scenario_5 :
  load_feed_data DATE_FORMAT [] (malformed_line ++ newline)
  = [(example_url, new_Feed example_url false)].
Proof. reflexivity. Qed.

(** What [strptime] accepts beyond what [strftime] writes, and what it
    refuses. *)
Example strptime_lenient :
  strptime_iso "2024-1- 5t7:08:9-05:30" = Some (mk_datetime 2024 1 5 7 8 9 (-19800000000))
  /\ strptime_iso "2024-01-05T07:08:09Z" = Some (mk_datetime 2024 1 5 7 8 9 0)
  /\ strptime_iso "2024-02-30T00:00:00+0000" = None
  /\ strptime_iso "2024-01-05T07:08:60+0000" = None
  /\ strptime_iso "2024-01-05T07:08:09+05:3015" = None
  /\ strptime_iso "2024-01-05T07:08:09+2400" = None
  /\ strptime_iso "2024-01-05T07:08:09" = None
  /\ strptime_iso "2024-01-05T07:08:09+0000 " = None.
Proof. repeat split; reflexivity. Qed.

(* ================================================================= *)
(** * Further properties *)

(** ** The configuration file *)

Lemma map_strip_fixed lines :
  Forall (fun u => strip u = u) lines -> map strip lines = lines.
Proof.
  induction 1 as [|u lines Hu _ IH]; [reflexivity|]. cbn [map]. now rewrite Hu, IH.
Qed.

Lemma configurable_facts u :
  configurable u = true ->
  strip u = u /\ all_chars not_newline u = true /\ is_url_line u = true.
Proof.
  unfold configurable, url_read. rewrite !andb_true_iff, String.eqb_eq. tauto.
Qed.

Lemma url_lines_write_lines urls :
  forallb configurable urls = true ->
  url_lines (universal_newlines (write_lines urls)) = urls.
Proof.
  intros Hall.
  assert (Hf : forall u, In u urls -> configurable u = true)
    by now apply forallb_forall.
  assert (Hnl : Forall (fun line => all_chars not_newline line = true) urls).
  { apply Forall_forall. intros u Hu. now apply configurable_facts, Hf. }
  rewrite universal_newlines_write_lines by exact Hnl.
  unfold url_lines. rewrite split_char_write_lines by exact Hnl.
  rewrite map_app, filter_app. cbn [map filter strip lstrip rstrip is_url_line].
  rewrite app_nil_r, map_strip_fixed.
  - apply forallb_filter_id. apply forallb_forall. intros u Hu.
    now apply configurable_facts, Hf.
  - apply Forall_forall. intros u Hu. now apply configurable_facts, Hf.
Qed.

(** X1. A configuration file that lists URLs one on a line (URLs that
    are not empty, carry no surrounding whitespace and no line end, and
    do not start with the comment sign) is read back as exactly that
    list: in order, a URL listed twice being returned twice. *)
Theorem get_url_list_reads_back (feed_file : string) (w : World)
    (urls : list Url) :
  forallb configurable urls = true ->
  files w feed_file = Some (write_lines urls) ->
  fst (get_url_list feed_file w) = urls.
Proof.
  intros Hall Hfile. unfold get_url_list. cbn [log files]. rewrite Hfile.
  cbn [fst]. now apply url_lines_write_lines.
Qed.

Lemma get_url_list_reads_back_witness :
  forallb configurable listed_urls = true
  /\ files listed_world (FEED_FILE listed_world) = Some (write_lines listed_urls)
  /\ fst (get_url_list (FEED_FILE listed_world) listed_world) = listed_urls.
Proof.
  split; [reflexivity|]. split; [reflexivity|].
  apply (get_url_list_reads_back (FEED_FILE listed_world) listed_world listed_urls);
    reflexivity.
Defined.

(** X2. Whatever the configuration file holds, every URL that
    [get_url_list] returns is not empty, carries no surrounding
    whitespace and no line end, and does not start with the comment
    sign. *)
Theorem get_url_list_urls (feed_file : string) (w : World) :
  Forall (fun u => u <> "" /\ strip u = u /\ all_chars not_newline u = true
                   /\ is_url_line u = true)
    (fst (get_url_list feed_file w)).
Proof.
  unfold get_url_list. cbn [log files].
  destruct (files w feed_file) as [raw|]; cbn [fst]; [|constructor].
  apply Forall_forall. intros u Hu.
  pose proof (url_lines_read raw) as Hread. rewrite Forall_forall in Hread.
  specialize (Hread u Hu). unfold url_read in Hread.
  rewrite !andb_true_iff, negb_true_iff, String.eqb_eq in Hread.
  destruct Hread as [[Hlen Hstrip] Hnl].
  unfold url_lines in Hu. apply filter_In in Hu. destruct Hu as [_ Hline].
  repeat split; auto. intros ->. discriminate Hlen.
Qed.

(** X3. A line that is blank or a comment once stripped changes nothing:
    the configuration lists the same URLs with it as without it,
    wherever the line stands. *)
Theorem comment_lines_are_skipped (feed_file : string) (w w' : World)
    (before after : list string) (line : string) :
  forallb (all_chars not_newline) (before ++ line :: after) = true ->
  is_url_line (strip line) = false ->
  files w feed_file = Some (write_lines (before ++ line :: after)) ->
  files w' feed_file = Some (write_lines (before ++ after)) ->
  fst (get_url_list feed_file w) = fst (get_url_list feed_file w').
Proof.
  intros Hnl Hline Hfile Hfile'. unfold get_url_list. cbn [log files].
  rewrite Hfile, Hfile'. cbn [fst].
  assert (Hall : Forall (fun l => all_chars not_newline l = true)
                   (before ++ line :: after)).
  { apply Forall_forall. now apply forallb_forall. }
  assert (Hall' : Forall (fun l => all_chars not_newline l = true) (before ++ after)).
  { apply Forall_app in Hall. destruct Hall as [Hb Ha].
    apply Forall_app. split; [exact Hb | now inversion Ha]. }
  rewrite !universal_newlines_write_lines by assumption.
  unfold url_lines. rewrite !split_char_write_lines by assumption.
  rewrite <- !app_assoc, !map_app, !filter_app. cbn [map filter app].
  now rewrite Hline.
Qed.

Lemma comment_lines_are_skipped_witness :
  forallb (all_chars not_newline)
    (["https://example.com/feed"] ++ "  # paused" :: ["https://example.com/other"])
  = true
  /\ is_url_line (strip "  # paused") = false
  /\ fst (get_url_list (FEED_FILE commented_world) commented_world)
     = fst (get_url_list (FEED_FILE commented_world) uncommented_world).
Proof.
  split; [reflexivity|]. split; [reflexivity|].
  apply (comment_lines_are_skipped (FEED_FILE commented_world)
           commented_world uncommented_world
           ["https://example.com/feed"] ["https://example.com/other"]
           "  # paused");
    reflexivity.
Defined.

(** ** The order and the upkeep of the working set *)

Lemma add_keys_app keys a b :
  add_keys keys (a ++ b) = add_keys (add_keys keys a) b.
Proof.
  revert keys. induction a as [|k a IH]; intros keys; [reflexivity|].
  cbn [app add_keys]. apply IH.
Qed.

Lemma dict_keys_set_add {V} (d : dict V) k v :
  dict_keys (dict_set d k v) = add_keys (dict_keys d) [k].
Proof.
  rewrite dict_keys_set. cbn [add_keys]. now rewrite existsb_keys_contains.
Qed.

Lemma dict_keys_store_record d r :
  dict_keys (store_record d r) = add_keys (dict_keys d) [fst r].
Proof.
  unfold store_record. rewrite dict_keys_alter. cbn [add_keys].
  rewrite existsb_keys_contains.
  destruct (dict_contains d (fst r)) eqn:E; cbn [negb]; [reflexivity|].
  now rewrite dict_keys_set, E.
Qed.

Lemma dict_keys_configured_from urls :
  forall d : dict Feed,
    dict_keys (fold_left (fun d u => dict_set d u (new_Feed u true)) urls d)
    = add_keys (dict_keys d) urls.
Proof.
  induction urls as [|u urls IH]; intros d; [reflexivity|].
  cbn [fold_left]. rewrite IH, dict_keys_set_add. reflexivity.
Qed.

Lemma dict_keys_store_records records :
  forall d,
    dict_keys (fold_left store_record records d)
    = add_keys (dict_keys d) (map fst records).
Proof.
  induction records as [|r records IH]; intros d; [reflexivity|].
  cbn [fold_left map]. rewrite IH, dict_keys_store_record. reflexivity.
Qed.

(** X4. The working set lists the configured URLs first, in the order
    of the configuration, then the URLs found in the state file only,
    in the order of the file, each URL at the place of its first
    occurrence; every source stands under its own URL, so this is the
    order in which [save_feed_data] writes the lines. *)
Theorem get_feed_data_key_order (data_file : string) (fmt : DateFormat)
    (urls : list Url) (w : World) :
  let merged := fst (get_feed_data data_file fmt urls w) in
  dict_keys merged
  = add_keys [] (urls ++ map fst (persisted_records fmt (data_lines data_file w)))
  /\ map url (dict_values merged) = dict_keys merged.
Proof.
  intros merged. split.
  - subst merged. rewrite get_feed_data_lines, data_lines_log, load_lines_records.
    rewrite dict_keys_store_records. unfold configured.
    rewrite dict_keys_configured_from. now rewrite add_keys_app.
  - pose proof (get_feed_data_keys data_file fmt urls w) as Hkeys.
    fold merged in Hkeys. unfold dict_values, dict_keys.
    induction Hkeys as [|kv d Hkv _ IH]; [reflexivity|].
    cbn [map]. f_equal; [exact Hkv | exact IH].
Qed.

(** X5. A source that the state file holds and the configuration no
    longer lists comes out of a completed run as it was loaded,
    whatever the network answers: disabled, without title or entries,
    with its persisted watermark. *)
Theorem unconfigured_sources_are_carried (w : World) (parse : Url -> ParsedFeed)
    (x : Url) (persisted : option datetime) (updated : dict Feed) :
  let feeds := fst (get_url_list (FEED_FILE w) w) in
  let w1 := snd (get_url_list (FEED_FILE w) w) in
  let feed_data := fst (get_feed_data (DATA_FILE w) DATE_FORMAT feeds w1) in
  existsb (String.eqb x) feeds = false ->
  persisted_watermark
    (persisted_records DATE_FORMAT (data_lines (DATA_FILE w) w)) x
  = Some persisted ->
  update_all parse feed_data = Returns updated ->
  dict_get updated x
  = Some (set_newest_retrieved_date persisted (new_Feed x false)).
Proof.
  intros feeds w1 feed_data Hx Hp Hup.
  destruct (update_all_lookup _ _ _ Hup) as [_ Hlook]. rewrite Hlook.
  subst feed_data. rewrite get_feed_data_lines, data_lines_log, dict_get_loaded.
  rewrite (data_lines_files (DATA_FILE w) w w1)
    by (apply get_url_list_frame, FEED_FILE_neq_DATA_FILE).
  now rewrite Hp, Hx.
Qed.

Lemma unconfigured_sources_are_carried_witness :
  existsb (String.eqb "https://example.com/other")
    (fst (get_url_list (FEED_FILE scenario5_world) scenario5_world)) = false
  /\ persisted_watermark
       (persisted_records DATE_FORMAT
          (data_lines (DATA_FILE scenario5_world) scenario5_world))
       "https://example.com/other"
     = Some (Some (utc_midnight 2024 1 1))
  /\ update_all example_net
       (fst (get_feed_data (DATA_FILE scenario5_world) DATE_FORMAT
               (fst (get_url_list (FEED_FILE scenario5_world) scenario5_world))
               (snd (get_url_list (FEED_FILE scenario5_world) scenario5_world))))
     = Returns
         [("https://example.com/feed",
           mk_Feed "https://example.com/feed" (Some "Example")
             [post_at 2024 3 1; post_at 2024 2 1; post_at 2024 2 1] false
             (Some (utc_midnight 2024 3 1)) true);
          ("https://example.com/other",
           set_newest_retrieved_date (Some (utc_midnight 2024 1 1))
             (new_Feed "https://example.com/other" false))]
  /\ dict_get
       [("https://example.com/feed",
         mk_Feed "https://example.com/feed" (Some "Example")
           [post_at 2024 3 1; post_at 2024 2 1; post_at 2024 2 1] false
           (Some (utc_midnight 2024 3 1)) true);
        ("https://example.com/other",
         set_newest_retrieved_date (Some (utc_midnight 2024 1 1))
           (new_Feed "https://example.com/other" false))]
       "https://example.com/other"
     = Some (set_newest_retrieved_date (Some (utc_midnight 2024 1 1))
               (new_Feed "https://example.com/other" false)).
Proof.
  split; [reflexivity|]. split; [reflexivity|]. split; [reflexivity|].
  apply (unconfigured_sources_are_carried scenario5_world example_net
           "https://example.com/other" (Some (utc_midnight 2024 1 1)));
    reflexivity.
Defined.

(** ** More on [update_feed] *)

Lemma new_items_none w items :
  (forall item t, In item items -> published_time item = Some t ->
                  is_after t w = false) ->
  new_items w items = [].
Proof.
  induction items as [|item items IH]; intros H; [reflexivity|].
  cbn [new_items].
  destruct (published_time item) as [t|] eqn:Et.
  - rewrite (H item t (or_introl eq_refl) Et).
    apply IH. intros i t' Hi. apply H. now right.
  - apply IH. intros i t' Hi. apply H. now right.
Qed.

(** Once the watermark has advanced over a list of items, none of them
    is new any more. *)
Lemma new_items_after_advance w items :
  new_items (advanced_watermark w (new_items w items)) items = [].
Proof.
  set (new := new_items w items).
  assert (Hlater : forall e, In e new -> later_than w (pub_date e))
    by (intros e; apply new_items_later).
  apply new_items_none. intros item t Hin Ht.
  destruct (is_after t (advanced_watermark w new)) eqn:Ea; [|reflexivity].
  exfalso. apply is_after_later_than in Ea.
  destruct (is_after t w) eqn:Ew.
  - assert (He : In (entry_of item t) new).
    { apply new_items_In. exists item, t.
      rewrite <- is_after_later_than. auto. }
    assert (Hne : new <> []) by (intros E; rewrite E in He; exact He).
    destruct (advanced_watermark_max w new Hlater Hne) as (e & _ & Heq & _ & Hmax).
    rewrite Heq in Ea. cbn in Ea. specialize (Hmax _ He). cbn in Hmax. lia.
  - pose proof (advanced_watermark_le w new Hlater) as Hle.
    destruct w as [d|]; [|discriminate Ew].
    cbn in Ew. unfold datetime_gt in Ew. apply Z.ltb_ge in Ew.
    destruct (advanced_watermark (Some d) new) as [d'|]; cbn in Hle, Ea;
      [lia | contradiction].
Qed.

(** X6. No item is reported twice: when an update has succeeded, the
    next run on the same answer of the network finds no new item and
    leaves the watermark where it is. *)
Theorem second_update_reports_nothing (parse : Url -> ParsedFeed) (feed : Feed) :
  fetch_failed (parse (url feed)) = false ->
  well_formed_feed (parse (url feed)) = true ->
  exists feed' feed'',
    update_feed parse feed = Returns feed'
    /\ update_feed parse (at_next_run feed') = Returns feed''
    /\ entries feed'' = []
    /\ newest_retrieved_date feed'' = newest_retrieved_date feed'.
Proof.
  intros Hok Hwf.
  rewrite (update_feed_success parse feed Hok Hwf).
  eexists. eexists. split; [reflexivity|].
  destruct (retitled_fields (parse (url feed)) feed) as (Hu & _ & _ & _ & _).
  match goal with
  | |- update_feed parse (at_next_run ?f) = _ /\ _ =>
      assert (Hurl : url (at_next_run f) = url feed) by (cbn; exact Hu)
  end.
  rewrite update_feed_success by (rewrite Hurl; assumption).
  rewrite Hurl. cbn [at_next_run newest_retrieved_date set_newest_retrieved_date
    set_entries new_Feed entries].
  rewrite new_items_after_advance.
  split; [reflexivity|]. split; reflexivity.
Qed.

Lemma second_update_reports_nothing_witness :
  fetch_failed (example_net (url (source_with None))) = false
  /\ well_formed_feed (example_net (url (source_with None))) = true
  /\ exists feed' feed'',
       update_feed example_net (source_with None) = Returns feed'
       /\ update_feed example_net (at_next_run feed') = Returns feed''
       /\ entries feed'' = []
       /\ newest_retrieved_date feed'' = newest_retrieved_date feed'.
Proof.
  split; [reflexivity|]. split; [reflexivity|].
  apply (second_update_reports_nothing example_net (source_with None));
    reflexivity.
Defined.



Lemma update_loop_extends w items :
  forall acc newest acc' newest',
    update_loop w items acc newest = Returns (acc', newest') ->
    exists added, acc' = (acc ++ added)%list.
Proof.
  induction items as [|item items IH]; intros acc newest acc' newest'; cbn [update_loop].
  - intros H. injection H as <- _. exists []. now rewrite app_nil_r.
  - destruct (published_parsed item) as [[tm|]|]; [|discriminate|apply IH].
    destruct (datetime_utc tm) as [t|]; [|discriminate].
    destruct (is_after t w); [|apply IH].
    intros H. destruct (IH _ _ _ _ H) as [added ->].
    eexists. now rewrite <- app_assoc.
Qed.

(** X8. An update that returns never renames a source, never changes
    whether it is enabled, never clears a failure that was recorded,
    never drops an entry the source had, and touches the title only
    after a fetch that succeeded and gave one. *)
Theorem update_feed_keeps (parse : Url -> ParsedFeed) (feed feed' : Feed) :
  update_feed parse feed = Returns feed' ->
  url feed' = url feed
  /\ is_enabled feed' = is_enabled feed
  /\ (retrieval_failed feed = true -> retrieval_failed feed' = true)
  /\ (forall e, In e (entries feed) -> In e (entries feed'))
  /\ title feed'
     = match feed_title (parse (url feed)) with
       | Some t => if fetch_failed (parse (url feed)) then title feed else Some t
       | None => title feed
       end.
Proof.
  unfold update_feed. destruct (fetch_failed (parse (url feed))).
  - intros H. injection H as <-. cbn.
    destruct (feed_title (parse (url feed))); auto.
  - destruct (retitled_fields (parse (url feed)) feed) as (Hu & He & _ & Hr & Hen).
    destruct (update_loop _ _ _ _) as [[found newest]|] eqn:El; [|discriminate].
    intros H. injection H as <-. cbn.
    repeat split; auto.
    + congruence.
    + intros e Hin. rewrite He in El.
      destruct (update_loop_extends _ _ _ _ _ _ El) as [added ->].
      apply (Permutation_in _ (Permutation_sym (sort_perm _))).
      apply in_or_app. now left.
    + unfold retitled. destruct (feed_title (parse (url feed))); reflexivity.
Qed.

Lemma update_feed_keeps_witness :
  update_feed example_net (source_with None)
  = Returns (mk_Feed example_url (Some "Example")
               [post_at 2024 3 1; post_at 2024 2 1; post_at 2024 2 1] false
               (Some (utc_midnight 2024 3 1)) true)
  /\ url (mk_Feed example_url (Some "Example")
            [post_at 2024 3 1; post_at 2024 2 1; post_at 2024 2 1] false
            (Some (utc_midnight 2024 3 1)) true)
     = url (source_with None).
Proof.
  split; [reflexivity|].
  apply (update_feed_keeps example_net (source_with None)). reflexivity.
Defined.



(** ** More on [main] *)

(** The four ways a run can go. *)
Lemma main_cases w :
  (files w (FEED_FILE w) = None
   /\ main w
      = (SystemExit 0,
         print_err (no_urls_message (FEED_FILE w))
           (write_file (FEED_FILE w) ""
              (log (Touch (FEED_FILE w)) (config_read w)))))
  \/ (files w (FEED_FILE w) <> None
      /\ fst (get_url_list (FEED_FILE w) w) = []
      /\ main w
         = (SystemExit 0,
            print_err (no_urls_message (FEED_FILE w)) (config_read w)))
  \/ (exists e,
        files w (FEED_FILE w) <> None
        /\ update_all (feedparser_parse w)
             (fst (get_feed_data (DATA_FILE w) DATE_FORMAT
                     (fst (get_url_list (FEED_FILE w) w)) (config_read w)))
           = Raises e
        /\ main w = (Uncaught e, state_read w))
  \/ (exists updated,
        files w (FEED_FILE w) <> None
        /\ update_all (feedparser_parse w)
             (fst (get_feed_data (DATA_FILE w) DATE_FORMAT
                     (fst (get_url_list (FEED_FILE w) w)) (config_read w)))
           = Returns updated
        /\ main w
           = (Returned,
              print_out (report (dict_values updated))
                (save_feed_data (DATA_FILE w) DATE_FORMAT updated (state_read w)))).
Proof.
  unfold main, get_url_list, config_read, state_read. cbn [log files].
  destruct (files w (FEED_FILE w)) as [raw|] eqn:Hconfig.
  - cbn [fst].
    destruct (url_lines (universal_newlines raw)) as [|u urls] eqn:Hurls.
    + right. left. cbn. repeat split. discriminate.
    + cbn [List.length Nat.eqb].
      rewrite <- Hurls.
      pose proof (get_feed_data_frame (DATA_FILE w) DATE_FORMAT
                    (url_lines (universal_newlines raw))
                    (log (OpenRead (FEED_FILE w)) w)) as Hframe.
      destruct (get_feed_data (DATA_FILE w) DATE_FORMAT
                  (url_lines (universal_newlines raw))
                  (log (OpenRead (FEED_FILE w)) w)) as [feed_data w2].
      cbn [fst snd] in Hframe |- *. subst w2. cbn [log feedparser_parse].
      destruct (update_all (feedparser_parse w) feed_data) as [updated|e].
      * right. right. right. exists updated. repeat split. discriminate.
      * right. right. left. exists e. repeat split. discriminate.
  - left. split; reflexivity.
Qed.

(** X10. Whatever the files and the network, a run opens the
    configuration file, then (when URLs are configured) the state file
    for reading, and opens the state file for writing only as its last
    file operation and only when it returns: a run that exits for want
    of URLs or dies of an exception never writes the state file. *)
Theorem main_file_operations (w : World) :
  trace (snd (main w)) = (trace w ++ run_events w (fst (main w)))%list.
Proof.
  destruct (main_cases w)
    as [[Hc ->] | [(Hc & _ & ->) | [(e & Hc & _ & ->) | (updated & Hc & _ & ->)]]];
    cbn [fst snd run_events].
  - rewrite Hc. cbn. now rewrite <- app_assoc.
  - destruct (files w (FEED_FILE w)); [reflexivity | contradiction].
  - cbn. now rewrite <- app_assoc.
  - cbn. now rewrite <- !app_assoc.
Qed.

(** X11. A run changes no file but the state file, save that it
    creates a missing configuration file, empty; a configuration file
    that exists is never changed, and the state file itself changes
    only in a run that returns. *)
Theorem main_changes_no_other_file (w : World) :
  (forall path,
      path <> DATA_FILE w -> path <> FEED_FILE w ->
      files (snd (main w)) path = files w path)
  /\ files (snd (main w)) (FEED_FILE w)
     = match files w (FEED_FILE w) with
       | Some text => Some text
       | None => Some ""
       end
  /\ (fst (main w) <> Returned ->
      files (snd (main w)) (DATA_FILE w) = files w (DATA_FILE w)).
Proof.
  pose proof (FEED_FILE_neq_DATA_FILE w) as Hne.
  assert (Hcr : forall path, files (config_read w) path = files w path)
    by reflexivity.
  assert (Hsr : forall path, files (state_read w) path = files w path)
    by reflexivity.
  destruct (main_cases w)
    as [[Hc ->] | [(Hc & _ & ->) | [(e & Hc & _ & ->) | (updated & Hc & _ & ->)]]];
    cbn [fst snd].
  - unfold print_err, write_file. cbn [files log].
    rewrite Hc, String.eqb_refl. repeat split.
    + intros path _ Hp. rewrite Hcr.
      destruct (String.eqb_spec path (FEED_FILE w)); congruence.
    + intros _. rewrite Hcr.
      destruct (String.eqb_spec (DATA_FILE w) (FEED_FILE w)); congruence.
  - unfold print_err. cbn [files]. rewrite !Hcr.
    destruct (files w (FEED_FILE w)); [|contradiction]. repeat split.
  - rewrite !Hsr.
    destruct (files w (FEED_FILE w)); [|contradiction]. repeat split.
  - unfold print_out, save_feed_data, write_file. cbn [files log].
    destruct (files w (FEED_FILE w)) eqn:E; [|contradiction]. repeat split.
    + intros path Hp _. rewrite Hsr.
      destruct (String.eqb_spec path (DATA_FILE w)); congruence.
    + rewrite Hsr.
      destruct (String.eqb_spec (FEED_FILE w) (DATA_FILE w)); congruence.
    + intros H. now contradiction H.
Qed.




Lemma report_new_closed_form feeds :
  report_new feeds = (flat_map block (filter has_new feeds), filter caught_up feeds).
Proof.
  induction feeds as [|f feeds IH]; [reflexivity|].
  cbn [report_new filter flat_map]. rewrite IH.
  unfold has_new, caught_up, block.
  destruct (is_enabled f); cbn [negb andb]; [|reflexivity].
  destruct (List.length (entries f) =? 0)%nat; cbn [negb]; [reflexivity|].
  cbn [flat_map app]. now rewrite <- app_assoc.
Qed.

(** X13. What [main] prints is made of the sources in the order of the
    working set: first, for each enabled source with new entries, its
    heading, its entries and an empty line; then, when some enabled
    source has no new entry, the summary heading and the headings of
    those sources.  A disabled source is never printed, and a source is
    printed once. *)
Theorem report_in_blocks (feeds : list Feed) :
  report feeds
  = (flat_map block (filter has_new feeds)
     ++ match filter caught_up feeds with
        | [] => []
        | without => "Feeds without new articles:" :: map Feed_get_info without
        end)%list.
Proof.
  unfold report. rewrite report_new_closed_form. f_equal.
  unfold report_without.
  assert (Hen : filter is_enabled (filter caught_up feeds) = filter caught_up feeds).
  { apply forallb_filter_id. apply forallb_forall. intros f Hf.
    apply filter_In in Hf. destruct Hf as [_ Hf]. unfold caught_up in Hf.
    now apply andb_true_iff in Hf. }
  rewrite Hen. destruct (filter caught_up feeds); reflexivity.
Qed.


(** ** The state file as a fixed point *)









(** ** URLs that contain the separator *)

Lemma strip_prefix_app p s x r :
  strip_prefix p s = Some x -> strip_prefix p (s ++ r) = Some (x ++ r).
Proof.
  revert s. induction p as [|a p IH]; intros s; cbn [strip_prefix].
  - intros H. now injection H as ->.
  - destruct s as [|b s]; [discriminate|]. cbn [append].
    destruct (Ascii.eqb a b); [apply IH | discriminate].
Qed.

Lemma length_lstrip s : (String.length (lstrip s) <= String.length s)%nat.
Proof.
  induction s as [|c s IH]; cbn [lstrip String.length]; [lia|].
  destruct (isspace c); cbn [String.length]; lia.
Qed.

Lemma length_rstrip s : (String.length (rstrip s) <= String.length s)%nat.
Proof.
  induction s as [|c s IH]; cbn [rstrip String.length]; [lia|].
  destruct (rstrip s) as [|a r]; [destruct (isspace c)|]; cbn [String.length] in *; lia.
Qed.

Lemma length_strip s : (String.length (strip s) <= String.length s)%nat.
Proof.
  unfold strip. pose proof (length_rstrip (lstrip s)). pose proof (length_lstrip s). lia.
Qed.

(** The separator is found before the end of a text that contains it,
    whatever follows the text. *)
Lemma find_split_inside (a0 : ascii) (sep' u r : string) :
  contains (String a0 sep') u = true ->
  exists a b,
    find_split (String a0 sep') (u ++ r) = Some (a, b)
    /\ (String.length a < String.length u)%nat.
Proof.
  set (sep := String a0 sep').
  induction u as [|c u IH]; cbn [contains].
  - subst sep. cbn [strip_prefix]. discriminate.
  - intros Hc. cbn [append find_split].
    destruct (strip_prefix sep (String c (u ++ r))) as [y|] eqn:Ey.
    + exists "", y. split; [reflexivity | cbn; lia].
    + destruct (strip_prefix sep (String c u)) as [x|] eqn:Ex.
      * apply (strip_prefix_app _ _ _ r) in Ex. cbn [append] in Ex. congruence.
      * destruct (IH Hc) as (a & b & -> & Hlen).
        exists (String c a), b. split; [reflexivity | cbn; lia].
Qed.

Lemma append_empty_r s : s ++ "" = s.
Proof. induction s as [|c s IH]; cbn; [reflexivity | now rewrite IH]. Qed.

Lemma parse_line_separator_url fmt u r w :
  contains "last updated" u = true -> parse_line fmt (u ++ r) <> Some (u, w).
Proof.
  intros Hc. destruct (find_split_inside _ _ u r Hc) as (a & b & Hf & Hlen).
  unfold parse_line. cbn [split_max]. rewrite Hf. cbv zeta.
  destruct (String.length (strip a) =? 0)%nat; [discriminate|].
  intros H. injection H as Hu _.
  pose proof (length_strip a) as Hs. rewrite Hu in Hs. lia.
Qed.

(** X16. The line written for a source whose URL contains the separator
    is never read back as a record of that URL, with or without
    watermark and whatever the date format: the URL is cut at the
    separator. *)
Theorem separator_url_is_not_read_back (fmt : DateFormat) (feed : Feed)
    (w : option datetime) :
  contains "last updated" (url feed) = true ->
  parse_line fmt (data_line fmt feed) <> Some (url feed, w).
Proof.
  intros Hc. unfold data_line.
  destruct (newest_retrieved_date feed) as [t|].
  - now apply parse_line_separator_url.
  - rewrite <- (append_empty_r (url feed)) at 1. now apply parse_line_separator_url.
Qed.

Lemma separator_url_is_not_read_back_witness :
  contains "last updated" (url separator_feed) = true
  /\ parse_line DATE_FORMAT (data_line DATE_FORMAT separator_feed)
     <> Some (url separator_feed, newest_retrieved_date separator_feed).
Proof.
  split; [reflexivity|].
  apply (separator_url_is_not_read_back DATE_FORMAT separator_feed). reflexivity.
Defined.

(** ** More on the state file *)

(** X17. When the state file names a URL on several lines, the last of
    them decides: the source is loaded with the watermark of that line,
    be it absent or malformed there, whatever the lines before said. *)
Theorem last_line_decides (data_file : string) (fmt : DateFormat)
    (urls : list Url) (w : World) (before after : list string) (line : string)
    (u : Url) (wm : option datetime) :
  data_lines data_file w = (before ++ line :: after)%list ->
  parse_line fmt line = Some (u, wm) ->
  persisted_watermark (persisted_records fmt after) u = None ->
  dict_get (fst (get_feed_data data_file fmt urls w)) u
  = Some (set_newest_retrieved_date wm (new_Feed u (existsb (String.eqb u) urls))).
Proof.
  intros Hlines Hline Hafter.
  rewrite get_feed_data_lines, data_lines_log, Hlines, dict_get_loaded.
  rewrite persisted_records_app, persisted_watermark_app.
  cbn [persisted_records flat_map]. rewrite Hline. cbn [app persisted_watermark].
  fold (persisted_records fmt after). rewrite Hafter, String.eqb_refl.
  reflexivity.
Qed.

Lemma last_line_decides_witness :
  data_lines (DATA_FILE twice_world) twice_world
  = ([good_line] ++ "https://example.com/other last updated yesterday" :: [""])%list
  /\ parse_line DATE_FORMAT "https://example.com/other last updated yesterday"
     = Some ("https://example.com/other", None)
  /\ persisted_watermark (persisted_records DATE_FORMAT [""])
       "https://example.com/other" = None
  /\ dict_get
       (fst (get_feed_data (DATA_FILE twice_world) DATE_FORMAT
               ["https://example.com/other"] twice_world))
       "https://example.com/other"
     = Some (new_Feed "https://example.com/other" true).
Proof.
  do 3 (split; [reflexivity|]).
  apply (last_line_decides (DATA_FILE twice_world) DATE_FORMAT
           ["https://example.com/other"] twice_world [good_line] [""]
           "https://example.com/other last updated yesterday"
           "https://example.com/other" None);
    reflexivity.
Defined.

(** X18. On a first run, without state file, the working set is the
    configured URLs, each once and in the order of the configuration,
    all enabled and without watermark; when no update raises, the run
    returns and creates the state file with one line for each of
    them. *)
Theorem first_run_creates_state_file (w : World) (updated : dict Feed) :
  let feeds := fst (get_url_list (FEED_FILE w) w) in
  files w (DATA_FILE w) = None ->
  (List.length feeds =? 0)%nat = false ->
  update_all (feedparser_parse w) (configured feeds) = Returns updated ->
  fst (get_feed_data (DATA_FILE w) DATE_FORMAT feeds (config_read w))
  = configured feeds
  /\ fst (main w) = Returned
  /\ files (snd (main w)) (DATA_FILE w) = Some (saved_text DATE_FORMAT updated)
  /\ dict_keys updated = add_keys [] feeds
  /\ List.length (dict_values updated) = List.length (add_keys [] feeds).
Proof.
  intros feeds Hmissing Hlen Hup.
  assert (Hload : fst (get_feed_data (DATA_FILE w) DATE_FORMAT feeds (config_read w))
                  = configured feeds).
  { unfold get_feed_data, config_read. cbn [log files]. now rewrite Hmissing. }
  destruct (update_all_lookup _ _ _ Hup) as [Hkeys _].
  assert (Hk : dict_keys updated = add_keys [] feeds).
  { rewrite Hkeys. unfold configured. now rewrite dict_keys_configured_from. }
  split; [exact Hload|].
  destruct (main_cases w)
    as [[Hc _] | [(Hc & Hnil & _) | [(e & Hc & Hnone & _) | (updated' & Hc & Hup' & ->)]]].
  - exfalso. subst feeds. unfold get_url_list in Hlen. cbn [log files] in Hlen.
    rewrite Hc in Hlen. discriminate Hlen.
  - exfalso. subst feeds. rewrite Hnil in Hlen. discriminate Hlen.
  - exfalso. subst feeds. rewrite Hload in Hnone. congruence.
  - subst feeds. rewrite Hload, Hup in Hup'. injection Hup' as <-.
    cbn [fst snd]. split; [reflexivity|]. split.
    + unfold print_out. cbn [files]. apply save_feed_data_file.
    + split; [exact Hk|]. rewrite <- Hk. unfold dict_values, dict_keys.
      now rewrite !length_map.
Qed.

Lemma first_run_creates_state_file_witness :
  files first_run_world (DATA_FILE first_run_world) = None
  /\ (List.length (fst (get_url_list (FEED_FILE first_run_world) first_run_world))
      =? 0)%nat = false
  /\ update_all (feedparser_parse first_run_world)
       (configured (fst (get_url_list (FEED_FILE first_run_world) first_run_world)))
     = Returns (run_updated first_run_world)
  /\ fst (main first_run_world) = Returned
  /\ files (snd (main first_run_world)) (DATA_FILE first_run_world)
     = Some (saved_text DATE_FORMAT (run_updated first_run_world))
  /\ dict_keys (run_updated first_run_world)
     = ["https://example.com/feed"; "https://example.com/other"].
Proof.
  do 3 (split; [reflexivity|]).
  pose proof (first_run_creates_state_file first_run_world
                (run_updated first_run_world) eq_refl eq_refl eq_refl)
    as (_ & H1 & H2 & H3 & _).
  split; [exact H1|]. split; [exact H2 | exact H3].
Defined.

(** *** Blanks around a line *)

Lemma isspace_not_l c : isspace c = true -> Ascii.eqb "l" c = false.
Proof. destruct c as [[] [] [] [] [] [] [] []]; intros H; try reflexivity; discriminate H. Qed.

Lemma find_split_after_blanks sep' pad s :
  all_chars isspace pad = true ->
  find_split (String "l" sep') (pad ++ s)
  = match find_split (String "l" sep') s with
    | Some (a, b) => Some (pad ++ a, b)
    | None => None
    end.
Proof.
  induction pad as [|c pad IH]; cbn [all_chars append].
  - intros _. destruct (find_split (String "l" sep') s) as [[a b]|]; reflexivity.
  - rewrite andb_true_iff. intros [Hc Hpad].
    cbn [find_split strip_prefix]. rewrite (isspace_not_l c Hc), (IH Hpad).
    destruct (find_split (String "l" sep') s) as [[a b]|]; reflexivity.
Qed.

Lemma lstrip_blanks pad s : all_chars isspace pad = true -> lstrip (pad ++ s) = lstrip s.
Proof.
  induction pad as [|c pad IH]; cbn [all_chars append lstrip]; [reflexivity|].
  rewrite andb_true_iff. intros [Hc Hpad]. now rewrite Hc, IH.
Qed.

Lemma rstrip_only_blanks pad : all_chars isspace pad = true -> rstrip pad = "".
Proof.
  induction pad as [|c pad IH]; cbn [all_chars rstrip]; [reflexivity|].
  rewrite andb_true_iff. intros [Hc Hpad]. now rewrite (IH Hpad), Hc.
Qed.

Lemma rstrip_blanks s pad : all_chars isspace pad = true -> rstrip (s ++ pad) = rstrip s.
Proof.
  intros Hpad. induction s as [|c s IH]; cbn [append rstrip].
  - now apply rstrip_only_blanks.
  - now rewrite IH.
Qed.

Lemma append_assoc_r a b c : (a ++ b) ++ c = a ++ (b ++ c).
Proof. induction a as [|x a IH]; cbn [append]; [reflexivity | now rewrite IH]. Qed.

Lemma isspace_chars_not_l pad :
  all_chars isspace pad = true ->
  all_chars (fun c => negb (Ascii.eqb "l" c)) pad = true.
Proof.
  apply all_chars_impl. intros c Hc. now rewrite (isspace_not_l c Hc).
Qed.

Lemma decimal_onto_not_empty fuel :
  forall n c r, decimal_onto fuel n (String c r) <> "".
Proof.
  induction fuel as [|fuel IH]; intros n c r; cbn [decimal_onto]; [discriminate|].
  destruct (n <? 10); [discriminate | apply IH].
Qed.

Lemma strftime_iso_not_empty t : strftime_iso t <> "".
Proof.
  unfold strftime_iso.
  assert (H : decimal (year t) <> "").
  { unfold decimal. cbn [decimal_onto].
    destruct (year t <? 10); [discriminate | apply decimal_onto_not_empty]. }
  destruct (decimal (year t)); [contradiction | cbn [append]; discriminate].
Qed.

(** X19. A line of the state file may be indented and may end in
    blanks: with any whitespace before the URL and after the timestamp,
    a line that [save_feed_data] writes is read as the line itself is:
    as the same URL, with the watermark when its year has four digits
    and without it when the year is below 1000. *)
Theorem blanks_around_a_line_are_dropped (before after : string) (u : Url)
    (t : datetime) :
  all_chars isspace before = true ->
  all_chars isspace after = true ->
  url_ok u = true ->
  datetime_valid t = true ->
  parse_line DATE_FORMAT
    (before ++ (u ++ " last updated " ++ strftime DATE_FORMAT t) ++ after)
  = parse_line DATE_FORMAT (u ++ " last updated " ++ strftime DATE_FORMAT t)
  /\ parse_line DATE_FORMAT
       (before ++ (u ++ " last updated " ++ strftime DATE_FORMAT t) ++ after)
     = Some (u, if 1000 <=? year t then Some t else None).
Proof.
  intros Hb Ha Hu Ht.
  assert (Hread : strptime_iso (strftime_iso t)
                  = if 1000 <=? year t then Some t else None).
  { destruct (Z.leb_spec 1000 (year t)).
    - now apply strptime_strftime_iso.
    - now apply strptime_strftime_short_year. }
  rewrite (parse_line_written u t Hu), Hread.
  assert (Hgoal : parse_line DATE_FORMAT
            (before ++ (u ++ " last updated " ++ strftime DATE_FORMAT t) ++ after)
          = Some (u, if 1000 <=? year t then Some t else None));
    [|split; exact Hgoal].
  rewrite <- Hread. clear Hread.
  apply url_ok_facts in Hu.
  destruct Hu as (Hne & Hlen & Hstrip & _ & Hsep).
  pose proof (strftime_iso_chars t) as Hchars.
  unfold parse_line. cbn [strftime DATE_FORMAT].
  replace ((u ++ " last updated " ++ strftime_iso t) ++ after)
    with (u ++ " last updated" ++ (" " ++ strftime_iso t ++ after)).
  2:{ now rewrite append_assoc_r. }
  cbn [split_max].
  rewrite (find_split_after_blanks _ before _ Hb).
  rewrite (find_split_separator u _ Hsep).
  rewrite find_split_no_first_char.
  2:{ cbn [append all_chars]. rewrite all_chars_app.
      rewrite (all_chars_impl _ _ _ timestamp_char_not_l Hchars).
      now rewrite (isspace_chars_not_l after Ha). }
  cbv iota beta. unfold strip at 1 2.
  rewrite (lstrip_blanks before _ Hb). fold (strip (u ++ " ")).
  rewrite (strip_app_space u Hstrip Hne), Hlen.
  unfold strip. change (lstrip (" " ++ ?x)) with (lstrip x).
  assert (Hts : all_chars not_space (strftime_iso t) = true)
    by (eapply all_chars_impl; [apply timestamp_char_not_space | exact Hchars]).
  assert (Hl : lstrip (strftime_iso t ++ after) = strftime_iso t ++ after).
  { destruct (strftime_iso t) as [|c r] eqn:E.
    - exfalso. exact (strftime_iso_not_empty t E).
    - cbn [all_chars] in Hts. apply andb_true_iff in Hts. destruct Hts as [Hc _].
      apply negb_true_iff in Hc. cbn [append lstrip]. now rewrite Hc. }
  rewrite Hl, (rstrip_blanks _ after Ha), (rstrip_not_space _ Hts).
  reflexivity.
Qed.

Lemma blanks_around_a_line_are_dropped_witness :
  all_chars isspace "   " = true
  /\ all_chars isspace "  " = true
  /\ url_ok "https://example.com/other" = true
  /\ datetime_valid (utc_midnight 2024 1 1) = true
  /\ parse_line DATE_FORMAT
       ("   "
        ++ ("https://example.com/other" ++ " last updated "
            ++ strftime DATE_FORMAT (utc_midnight 2024 1 1))
        ++ "  ")
     = parse_line DATE_FORMAT
         ("https://example.com/other" ++ " last updated "
          ++ strftime DATE_FORMAT (utc_midnight 2024 1 1))
  /\ parse_line DATE_FORMAT
       ("   "
        ++ ("https://example.com/other" ++ " last updated "
            ++ strftime DATE_FORMAT (utc_midnight 2024 1 1))
        ++ "  ")
     = Some ("https://example.com/other",
             if 1000 <=? year (utc_midnight 2024 1 1)
             then Some (utc_midnight 2024 1 1) else None).
Proof.
  do 4 (split; [reflexivity|]).
  apply (blanks_around_a_line_are_dropped "   " "  " "https://example.com/other"
           (utc_midnight 2024 1 1));
    reflexivity.
Defined.
